(** * PyQQMusicApi web port: credential guard and response envelope

    A shallow embedding of [web/app.py]: the normalized response envelope
    ([ApiResponseModel], [ApiResponse]), the two storage helpers
    ([load_credential_from_file], [save_credential_to_file]) and the request
    handler [_api_web] with its credential guard.

    Python values that cross the boundary (JSON documents, the [data]
    payload, the cookie dictionary) are a small inductive type; the
    process-wide globals are one record; credential objects live in a store
    addressed by location, so that two names for one object alias; [try],
    [except], [finally] and [with] are combinators of a state-and-exception
    monad that also records the externally visible events of a run. *)

From stdpp Require Import base numbers strings list.

Open Scope string_scope.
Open Scope Z_scope.
Open Scope list_scope.

(** ** Python values *)

#[local] Set Warnings "-register-all".

Inductive pyval : Type :=
| PNone
| PBool (b : bool)
| PInt (z : Z)
| PStr (s : string)
| PList (l : list pyval)
| PDict (d : list (string * pyval)).

(** Python truthiness, as used by [if errors:], [if not cookies:] and
    [if global_credential:]. *)
Definition truthy (v : pyval) : bool :=
  match v with
  | PNone => false
  | PBool b => b
  | PInt z => negb (Z.eqb z 0)
  | PStr s => negb (String.eqb s "")
  | PList l => negb (Nat.eqb (length l) 0)
  | PDict d => negb (Nat.eqb (length d) 0)
  end.

Definition is_none (v : pyval) : bool :=
  match v with PNone => true | _ => false end.

Definition is_dict (v : pyval) : bool :=
  match v with PDict _ => true | _ => false end.

(** [d.get(k)] on a dictionary kept as an association list. *)
Fixpoint dict_get (k : string) (d : list (string * pyval)) : option pyval :=
  match d with
  | [] => None
  | (k', v) :: d' => if String.eqb k k' then Some v else dict_get k d'
  end.

Definition has_key (k : string) (d : list (string * pyval)) : bool :=
  match dict_get k d with Some _ => true | None => false end.

Definition str_list (l : list string) : pyval := PList (PStr <$> l).

(** ** HTTP status codes used by the handler *)

Definition HTTP_200_OK : Z := 200.
Definition HTTP_400_BAD_REQUEST : Z := 400.
Definition HTTP_401_UNAUTHORIZED : Z := 401.
Definition HTTP_404_NOT_FOUND : Z := 404.
Definition HTTP_422_UNPROCESSABLE_ENTITY : Z := 422.
Definition HTTP_500_INTERNAL_SERVER_ERROR : Z := 500.
Definition HTTP_503_SERVICE_UNAVAILABLE : Z := 503.

(** ** The response envelope *)

(** [class ApiResponseModel(BaseModel)]: [data] and [errors] default to
    [None]; [code], [message] and [timestamp] are required. *)
Record ApiResponseModel : Type := mkApiResponseModel {
  code : Z;
  message : string;
  data : pyval;
  errors : option (list string);
  timestamp : Z
}.

(** [.dict(exclude_unset=True, exclude_defaults=True)]: every field is passed
    to the constructor, so none is unset; a field that has a default and is
    equal to it is left out of the dictionary. *)
Definition model_dict (m : ApiResponseModel) : list (string * pyval) :=
  [("code", PInt (code m)); ("message", PStr (message m))]
  ++ match data m with PNone => [] | v => [("data", v)] end
  ++ match errors m with None => [] | Some l => [("errors", str_list l)] end
  ++ [("timestamp", PInt (timestamp m))].

(** The [errors] argument of [ApiResponse]: [str | list[str] | None]. *)
Inductive errors_arg : Type :=
| ErrNone
| ErrStr (s : string)
| ErrList (l : list string).

Definition errors_truthy (e : errors_arg) : bool :=
  match e with
  | ErrNone => false
  | ErrStr s => negb (String.eqb s "")
  | ErrList l => negb (Nat.eqb (length l) 0)
  end.

(** Lines 41-43: [processed_errors]. *)
Definition processed_errors (e : errors_arg) : option (list string) :=
  if errors_truthy e then
    match e with
    | ErrStr s => Some [s]
    | ErrList l => Some l
    | ErrNone => None
    end
  else None.

(** What the HTTP layer sends: the status line and the JSON content. *)
Record Response : Type := mkResponse {
  status_code : Z;
  content : list (string * pyval)
}.

Module ApiResponse.

(** [ApiResponse.__init__]; [now] is the value of [int(time())]. The
    response is the status and the content handed to the parent class;
    rendering the content to bytes is the parent's work. *)
Definition init (now : Z) (status : Z) (msg : string) (d : pyval)
    (e : errors_arg) : Response :=
  {| status_code := status;
     content := model_dict
       {| code := status; message := msg; data := d;
          errors := processed_errors e; timestamp := now |} |}.

Definition success (now : Z) (d : pyval) (msg : string) (status : Z)
    : Response :=
  init now status msg d ErrNone.

Definition error (now : Z) (e : errors_arg) (msg : string) (status : Z)
    : Response :=
  init now status msg PNone e.

End ApiResponse.

(** The [errors] entry of an envelope, if it has one. *)
Definition envelope_errors (r : Response) : option pyval :=
  dict_get "errors" (content r).

Definition has_all_five (r : Response) : bool :=
  has_key "code" (content r) && has_key "message" (content r)
  && has_key "data" (content r) && has_key "errors" (content r)
  && has_key "timestamp" (content r).

(** ** Credentials, exceptions and the outside world *)

(** Modelled from the spec: the [Credential] class lives in the
    [qqmusic_api] package, which is not among the sources at hand. The spec
    gives it as an opaque token set with the observers
    [is_expired() -> bool], [can_refresh() -> bool] and the required-field
    checks [has_musicid()] / [has_musickey()], and a serialization to a flat
    key-value mapping ([as_dict]). An object of the class is truthy.
    [is_expired] and [can_refresh] are the truth value the call has where
    [app.py] writes it. Lines 164, 171 and 185 do not await the call (line
    187 does await [refresh()]): for a plain method the value is the
    answer, for a coroutine function it is [true], the un-awaited call
    being a coroutine object. *)
Record Credential : Type := mkCredential {
  as_dict : list (string * pyval);
  has_musicid : bool;
  has_musickey : bool;
  is_expired : bool;
  can_refresh : bool
}.

(** The spec's single required-fields observer. *)
Definition has_required_fields (c : Credential) : bool :=
  has_musicid c && has_musickey c.

(** Exceptions; every one of them is an [Exception] for [except Exception]. *)
Inductive exn : Type :=
| Exception (msg : string)
| LoginError (msg : string)
| AttributeError (msg : string)
| OSError (msg : string)
| ValueError (msg : string).

Definition is_LoginError (e : exn) : bool :=
  match e with LoginError _ => true | _ => false end.

Inductive outcome (A : Type) : Type :=
| Ret (a : A)
| Raise (e : exn).
Arguments Ret {A} a.
Arguments Raise {A} e.

Definition returned {A} (o : outcome A) : bool :=
  match o with Ret _ => true | Raise _ => false end.

(** Credential objects are addressed by their position in the store. *)
Definition loc : Type := nat.

(** *** The interactive QR login ([examples/qrcode_login.py]) *)

Inductive QRCodeLoginEvents : Type := DONE | TIMEOUT | SCAN | CONF.

(** One turn of the polling loop: whether [time() - start_time > timeout]
    by then, and what [check_qrcode(qr)] answers. *)
Record poll : Type := mkPoll {
  timed_out : bool;
  check_qrcode : outcome (QRCodeLoginEvents * option Credential)
}.

Record login_script : Type := mkLoginScript {
  get_qrcode : outcome unit;
  polls : list poll
}.

(** The [while True] loop of lines 54-73. The clock passes the timeout at
    the latest when the script of answers is used up. The result is what
    the [try] block yields: [Ret (Some r)] for a [return r] inside it,
    [Ret None] for the [break], [Raise e] for an exception. *)
Fixpoint poll_loop (ps : list poll) : outcome (option (option Credential)) :=
  match ps with
  | [] => Ret (Some None)
  | p :: ps' =>
      if timed_out p then Ret (Some None)
      else match check_qrcode p with
           | Raise e => Raise e
           | Ret (DONE, Some c) => Ret (Some (Some c))
           | Ret (DONE, None) =>
               Raise (AttributeError "'NoneType' object has no attribute 'musicid'")
           | Ret (TIMEOUT, _) => Ret None
           | Ret (_, _) => poll_loop ps'
           end
  end.

(** [qrcode_login_example(login_type, timeout)]: a [LoginError] ends in
    [return None], any other exception is raised again. *)
Definition qrcode_login_example (sc : login_script) : outcome (option Credential) :=
  let body :=
    match get_qrcode sc with
    | Raise e => Raise e
    | Ret _ => poll_loop (polls sc)
    end in
  match body with
  | Ret (Some r) => Ret r
  | Ret None => Ret None
  | Raise e => if is_LoginError e then Ret None else Raise e
  end.

(** *** Storage *)

(** The content of [qqMusicCookies.json]: a JSON document, or bytes that do
    not parse. A file that does not exist is [None]. *)
Inductive file_content : Type :=
| Json (v : pyval)
| Garbage.

(** The ways the operating system can fail one storage call. *)
Record io_faults : Type := mkFaults {
  open_w_fails : bool;
  dump_fails : bool;
  open_r_fails : bool
}.

Definition no_faults : io_faults := mkFaults false false false.

(** Everything the handler does not decide itself. [w_login n] is the
    course of the [n]-th interactive login of the process, [w_io n] the
    faults of its [n]-th storage call. [from_cookies_dict] is handed the
    module's own dictionary, not a copy: [w_cookies_left ck] is what the
    call leaves in a dictionary that held [ck]. *)
Record World : Type := mkWorld {
  w_now : Z;
  w_from_cookies : pyval -> outcome Credential;
  w_cookies_left : pyval -> pyval;
  w_login : nat -> login_script;
  w_refresh : Credential -> outcome Credential;
  w_io : nat -> io_faults;
  w_parse : string -> string -> list (string * string)
            -> outcome (pyval * option (list string));
  w_valid : string -> string -> list (string * string) -> bool
}.

(** ** Process state and events *)

Record State : Type := mkState {
  store : list Credential;
  global_credential : option loc;
  is_logging_in : bool;
  cookies : pyval;
  session_credential : option loc;
  config_file : option file_content;
  logins : nat;
  io_calls : nat
}.

Definition with_store (st : list Credential) (s : State) : State :=
  mkState st (global_credential s) (is_logging_in s) (cookies s)
          (session_credential s) (config_file s) (logins s) (io_calls s).
Definition with_global_credential (g : option loc) (s : State) : State :=
  mkState (store s) g (is_logging_in s) (cookies s)
          (session_credential s) (config_file s) (logins s) (io_calls s).
Definition with_is_logging_in (b : bool) (s : State) : State :=
  mkState (store s) (global_credential s) b (cookies s)
          (session_credential s) (config_file s) (logins s) (io_calls s).
Definition with_cookies (c : pyval) (s : State) : State :=
  mkState (store s) (global_credential s) (is_logging_in s) c
          (session_credential s) (config_file s) (logins s) (io_calls s).
Definition with_session_credential (g : option loc) (s : State) : State :=
  mkState (store s) (global_credential s) (is_logging_in s) (cookies s)
          g (config_file s) (logins s) (io_calls s).
Definition with_config_file (f : option file_content) (s : State) : State :=
  mkState (store s) (global_credential s) (is_logging_in s) (cookies s)
          (session_credential s) f (logins s) (io_calls s).
Definition with_logins (n : nat) (s : State) : State :=
  mkState (store s) (global_credential s) (is_logging_in s) (cookies s)
          (session_credential s) (config_file s) n (io_calls s).
Definition with_io_calls (n : nat) (s : State) : State :=
  mkState (store s) (global_credential s) (is_logging_in s) (cookies s)
          (session_credential s) (config_file s) (logins s) n.

(** What a run does that is visible from outside the handler. *)
Inductive event : Type :=
| EvAcquire                               (* credential_lock taken *)
| EvRelease                               (* credential_lock given back *)
| EvFlag (b : bool)                       (* is_logging_in = b *)
| EvFromCookies                           (* Credential.from_cookies_dict *)
| EvLogin (r : outcome (option loc))      (* qrcode_login_example and its result *)
| EvSave (l : loc)                        (* save_credential_to_file *)
| EvRefresh (l : loc)                     (* credential.refresh() *)
| EvParse.                                (* parser.parse() *)

(** ** The monad: state, exceptions, and the events of the run *)

Definition M (A : Type) : Type := State -> outcome A * State * list event.

#[global] Instance M_ret : MRet M := fun A a s => (Ret a, s, []).

#[global] Instance M_bind : MBind M := fun A B f m s =>
  match m s with
  | (Ret a, s1, t1) =>
      match f a s1 with (r, s2, t2) => (r, s2, t1 ++ t2) end
  | (Raise e, s1, t1) => (Raise e, s1, t1)
  end.

Definition raise {A} (e : exn) : M A := fun s => (Raise e, s, []).
Definition get : M State := fun s => (Ret s, s, []).
Definition modify (f : State -> State) : M unit := fun s => (Ret tt, f s, []).
Definition emit (e : event) : M unit := fun s => (Ret tt, s, [e]).
Definition lift {A} (o : outcome A) : M A := fun s => (o, s, []).

(** [try: m  except Exception as e: h e] *)
Definition try_except {A} (m : M A) (h : exn -> M A) : M A := fun s =>
  match m s with
  | (Ret a, s1, t1) => (Ret a, s1, t1)
  | (Raise e, s1, t1) =>
      match h e s1 with (r, s2, t2) => (r, s2, t1 ++ t2) end
  end.

(** [try: m  finally: f] *)
Definition try_finally {A} (m : M A) (f : M unit) : M A := fun s =>
  match m s with
  | (r, s1, t1) =>
      match f s1 with
      | (Ret _, s2, t2) => (r, s2, t1 ++ t2)
      | (Raise e, s2, t2) => (Raise e, s2, t1 ++ t2)
      end
  end.

(** [with credential_lock: m] *)
Definition with_credential_lock {A} (m : M A) : M A :=
  emit EvAcquire ;; try_finally m (emit EvRelease).

(** ** Primitive operations on the process state *)

(** Reading an object through a reference. A location outside the store
    does not denote an object; no state the program builds has one. *)
Definition deref (l : loc) : M Credential := fun s =>
  match store s !! l with
  | Some c => (Ret c, s, [])
  | None => (Raise (Exception "no object at this location"), s, [])
  end.

(** A new object: it gets the next free location. *)
Definition alloc (c : Credential) : M loc := fun s =>
  (Ret (length (store s)), with_store (store s ++ [c]) s, []).

(** [is_logging_in = b] *)
Definition set_is_logging_in (b : bool) : M unit :=
  modify (with_is_logging_in b) ;; emit (EvFlag b).

(** The faults that hit this storage call. *)
Definition next_io (w : World) : M io_faults := fun s =>
  (Ret (w_io w (io_calls s)), with_io_calls (S (io_calls s)) s, []).

(** [with open(config_path, "w") as f: json.dump(v, f, indent=4)].
    Opening for writing truncates, so a failed dump leaves no document. *)
Definition write_json (fl : io_faults) (v : pyval) : M unit := fun s =>
  if open_w_fails fl then (Raise (OSError "cannot open for writing"), s, [])
  else if dump_fails fl then
    (Raise (OSError "write failed"), with_config_file (Some Garbage) s, [])
  else (Ret tt, with_config_file (Some (Json v)) s, []).

(** [with open(config_path, "r") as f: config = json.load(f)] *)
Definition read_json (fl : io_faults) : M pyval := fun s =>
  match config_file s with
  | None => (Raise (OSError "No such file or directory"), s, [])
  | Some c =>
      if open_r_fails fl then (Raise (OSError "cannot open for reading"), s, [])
      else match c with
           | Garbage => (Raise (ValueError "Expecting value"), s, [])
           | Json v => (Ret v, s, [])
           end
  end.

(** [config.get("cookies", {})]; only a dict has [get]. *)
Definition get_cookies (config : pyval) : M pyval :=
  match config with
  | PDict d => mret (default (PDict []) (dict_get "cookies" d))
  | _ => raise (AttributeError "object has no attribute 'get'")
  end.

(** ** The storage helpers (lines 94-119) *)

Definition load_credential_from_file (w : World) : M pyval :=
  fl ← next_io w;
  try_except
    (s ← get;
     (if negb (bool_decide (is_Some (config_file s))) then
        write_json fl (PDict [("cookies", PDict [])])
      else mret tt) ;;
     config ← read_json fl;
     get_cookies config)
    (fun _ => mret (PDict [])).

(** The document [save_credential_to_file] writes for a credential. *)
Definition config_of (c : Credential) : pyval :=
  PDict [("cookies", PDict (as_dict c))].

Definition save_credential_to_file (w : World) (l : loc) : M unit :=
  emit (EvSave l) ;;
  fl ← next_io w;
  try_except
    (c ← deref l;
     write_json fl (config_of c))
    (fun _ => mret tt).

(** Line 123, run once when the module is imported. *)
Definition startup (w : World) : M unit :=
  c ← load_credential_from_file w;
  modify (with_cookies c).

(** The process before line 123 has run, for a given storage file. *)
Definition initial_state (f : option file_content) : State :=
  mkState [] None false PNone None f 0 0.

(** ** The request handler (lines 145-237) *)

(** [await qrcode_login_example(QRLoginType.QQ)]: the next login of the
    process; a credential it yields is a new object. *)
Definition qrcode_login (w : World) : M (option loc) := fun s =>
  let s1 := with_logins (S (logins s)) s in
  match qrcode_login_example (w_login w (logins s)) with
  | Ret (Some c) =>
      let l := length (store s) in
      (Ret (Some l), with_store (store s ++ [c]) s1, [EvLogin (Ret (Some l))])
  | Ret None => (Ret None, s1, [EvLogin (Ret None)])
  | Raise e => (Raise e, s1, [EvLogin (Raise e)])
  end.

(** Lines 177-183, and again lines 218-224. *)
Definition relogin (w : World) : M unit :=
  set_is_logging_in true ;;
  try_finally
    (g ← qrcode_login w;
     modify (with_global_credential g) ;;
     match g with
     | Some l => save_credential_to_file w l
     | None => mret tt
     end)
    (set_is_logging_in false).

(** [Credential.from_cookies_dict(cookies)] on the module-level [cookies]
    (line 170): the callee works on the dictionary itself, so what it does
    to it shows in [cookies] afterwards, whether it returns or raises. *)
Definition from_cookies_dict (w : World) (ck : pyval) : M loc :=
  emit EvFromCookies ;;
  modify (with_cookies (w_cookies_left w ck)) ;;
  c ← lift (w_from_cookies w ck);
  alloc c.

(** The test of line 171 on the credential built from the cookies. *)
Definition cookie_credential_accepted (c : Credential) : bool :=
  has_musicid c && has_musickey c && is_expired c.

(** Lines 166-183: the [try] that reads the cookies and its handler. *)
Definition reconstruct_or_login (w : World) : M unit :=
  try_except
    (s ← get;
     if negb (truthy (cookies s)) then
       raise (Exception "Cookies 为空，请在配置文件中配置")
     else
       l ← from_cookies_dict w (cookies s);
       c ← deref l;
       if negb (cookie_credential_accepted c) then
         raise (Exception "Credential 无效")
       else modify (with_global_credential (Some l)))
    (fun _ => relogin w).

(** The condition of line 164. *)
Definition needs_reconstruction : M bool :=
  s ← get;
  match global_credential s with
  | None => mret true
  | Some l => c ← deref l; mret (negb (is_expired c))
  end.

(** Lines 164-183. *)
Definition ensure_credential (w : World) : M unit :=
  needs_reconstruction ≫= fun b : bool =>
  if b then reconstruct_or_login w else mret tt.

(** [await global_credential.refresh()]: the object changes, the reference
    to it does not. *)
Definition refresh (w : World) (l : loc) : M unit :=
  emit (EvRefresh l) ;;
  c ← deref l;
  c' ← lift (w_refresh w c);
  modify (fun s => with_store (<[l := c']> (store s)) s).

(** Lines 185-191. *)
Definition refresh_and_publish (w : World) : M unit :=
  s ← get;
  match global_credential s with
  | None => raise (AttributeError "'NoneType' object has no attribute 'can_refresh'")
  | Some l =>
      c ← deref l;
      (if can_refresh c then refresh w l else mret tt) ;;
      s' ← get;
      modify (with_session_credential (global_credential s'))
  end.

(** Lines 162-191: the body of the first [try]. *)
Definition credential_guard (w : World) : M unit :=
  with_credential_lock (ensure_credential w ;; refresh_and_publish w).

Definition CREDENTIAL_EXPIRED : string := "QQ音乐API错误: 凭证已过期".

(** [result, errors = await parser.parse()] *)
Definition parse (w : World) (module func : string)
    (params : list (string * string)) : M (pyval * option (list string)) :=
  emit EvParse ;; lift (w_parse w module func params).

(** [if errors:] on the second component of the parse result. *)
Definition errors_present (e : option (list string)) : bool :=
  match e with
  | Some l => negb (Nat.eqb (length l) 0)
  | None => false
  end.

(** Lines 212-229. *)
Definition report_errors (w : World) (errs : list string) : M Response :=
  (if existsb (String.eqb CREDENTIAL_EXPIRED) errs then
     with_credential_lock (relogin w)
   else mret tt) ;;
  mret (ApiResponse.error (w_now w) (ErrList errs)
          "Request Validation Failed" HTTP_422_UNPROCESSABLE_ENTITY).

(** Lines 197-237: what follows the credential guard. *)
Definition dispatch (w : World) (module func : string)
    (params : list (string * string)) : M Response :=
  p ← try_except
        (x ← parse w module func params; mret (inl x))
        (fun _ => mret (inr (ApiResponse.error (w_now w)
                    (ErrList ["服务器处理请求时发生异常"]) "Internal Error"
                    HTTP_500_INTERNAL_SERVER_ERROR)));
  match p with
  | inr resp => mret resp
  | inl (result, errs) =>
      if errors_present errs then report_errors w (default [] errs)
      else if negb (w_valid w module func params) then
        mret (ApiResponse.error (w_now w) (ErrList ["无效的请求参数"])
                "Bad Request" HTTP_400_BAD_REQUEST)
      else
        mret (ApiResponse.success (w_now w) result "请求成功" HTTP_200_OK)
  end.

Definition _api_web (w : World) (module func : string)
    (params : list (string * string)) : M Response :=
  s ← get;
  if is_logging_in s then
    mret (ApiResponse.error (w_now w) (ErrList ["服务器正在登录，请稍后再试"])
            "Service Unavailable" HTTP_503_SERVICE_UNAVAILABLE)
  else
    r ← try_except
          (credential_guard w ;; mret None)
          (fun _ => mret (Some (ApiResponse.error (w_now w)
                      (ErrStr "无效的用户凭证") "Unauthorized"
                      HTTP_401_UNAUTHORIZED)));
    match r with
    | Some resp => mret resp
    | None => dispatch w module func params
    end.

(** ** Reading a run *)

Definition result_of {A} (x : outcome A * State * list event) : outcome A := x.1.1.
Definition state_of {A} (x : outcome A * State * list event) : State := x.1.2.
Definition trace_of {A} (x : outcome A * State * list event) : list event := x.2.

(** The file after one attempt to write the document of [c] over [old]. *)
Definition written (fl : io_faults) (c : Credential)
    (old : option file_content) : option file_content :=
  if open_w_fails fl then old
  else if dump_fails fl then Some Garbage
  else Some (Json (config_of c)).

(** ** Disciplines on traces *)

Section Automaton.
Context {Q : Type} (step : Q -> event -> option Q).

(** Run a checker over a trace; [None] when an event is out of order. *)
Fixpoint run (q : Q) (t : list event) : option Q :=
  match t with
  | [] => Some q
  | e :: t' =>
      match step q e with
      | Some q' => run q' t'
      | None => None
      end
  end.
End Automaton.

(** The login-in-progress flag: outside a login it is down; it goes up,
    then exactly one login runs, possibly followed by the save of its
    credential, then it goes down. *)
Inductive flag_phase : Type := Idle | Armed | Busy.

Definition flag_step (q : flag_phase) (e : event) : option flag_phase :=
  match q, e with
  | Idle, EvFlag true => Some Armed
  | Idle, EvFlag false => None
  | Idle, EvLogin _ => None
  | Idle, _ => Some Idle
  | Armed, EvLogin _ => Some Busy
  | Armed, _ => None
  | Busy, EvSave _ => Some Busy
  | Busy, EvFlag false => Some Idle
  | Busy, _ => None
  end.

(** The value of the flag after a trace, from the writes it records. *)
Definition flag_after (b : bool) (t : list event) : bool :=
  foldl (fun b e => match e with EvFlag b' => b' | _ => b end) b t.

(** The credential lock, as the code uses it: not taken twice, not given
    back when free, and a login, like a write of the flag, only while it is
    held. *)
Definition lock_step (held : bool) (e : event) : option bool :=
  match e with
  | EvAcquire => if held then None else Some true
  | EvRelease => if held then Some false else None
  | EvLogin _ => if held then Some held else None
  | EvFlag _ => if held then Some held else None
  | _ => Some held
  end.

(** The lock as the spec words it: no login while the lock is held. *)
Definition spec_lock_step (held : bool) (e : event) : option bool :=
  match e with
  | EvAcquire => if held then None else Some true
  | EvRelease => if held then Some false else None
  | EvLogin _ => if held then None else Some held
  | _ => Some held
  end.

(** Persistence: a login that yields a credential is followed at once by
    the save of that credential, and nothing else is saved. The state is
    the credential still owed a save. *)
Definition persist_step (owed : option loc) (e : event) : option (option loc) :=
  match owed, e with
  | None, EvLogin (Ret (Some l)) => Some (Some l)
  | None, EvSave _ => None
  | None, _ => Some None
  | Some l, EvSave l' => if Nat.eqb l l' then Some None else None
  | Some _, _ => None
  end.

Definition is_login (e : event) : bool :=
  match e with EvLogin _ => true | _ => false end.
Definition is_save (e : event) : bool :=
  match e with EvSave _ => true | _ => false end.
Definition is_parse (e : event) : bool :=
  match e with EvParse => true | _ => false end.
Definition is_from_cookies (e : event) : bool :=
  match e with EvFromCookies => true | _ => false end.
Definition is_refresh_of (l : loc) (e : event) : bool :=
  match e with EvRefresh l' => Nat.eqb l l' | _ => false end.

Definition count (p : event -> bool) (t : list event) : nat :=
  length (List.filter p t).

(** The traces of one [relogin]. *)
Inductive relogin_trace : list event -> Prop :=
| relogin_saved l :
    relogin_trace [EvFlag true; EvLogin (Ret (Some l)); EvSave l; EvFlag false]
| relogin_none :
    relogin_trace [EvFlag true; EvLogin (Ret None); EvFlag false]
| relogin_raised e :
    relogin_trace [EvFlag true; EvLogin (Raise e); EvFlag false].

(** The traces of lines 164-183. *)
Inductive ensure_trace : list event -> Prop :=
| ensure_kept : ensure_trace []
| ensure_installed : ensure_trace [EvFromCookies]
| ensure_rejected t : relogin_trace t -> ensure_trace (EvFromCookies :: t)
| ensure_no_cookies t : relogin_trace t -> ensure_trace t.

(** The traces of lines 185-191. *)
Inductive publish_trace : list event -> Prop :=
| publish_plain : publish_trace []
| publish_refreshed l : publish_trace [EvRefresh l].

(** The traces of the credential guard, lines 162-191. *)
Inductive guard_trace : list event -> Prop :=
| guard_run te tp :
    ensure_trace te -> publish_trace tp ->
    guard_trace (EvAcquire :: te ++ tp ++ [EvRelease]).

(** The traces of the whole handler. *)
Inductive handler_trace : list event -> Prop :=
| handler_busy : handler_trace []
| handler_unauthorized tg : guard_trace tg -> handler_trace tg
| handler_dispatched tg : guard_trace tg -> handler_trace (tg ++ [EvParse])
| handler_relogin tg tr :
    guard_trace tg -> relogin_trace tr ->
    handler_trace (tg ++ EvParse :: EvAcquire :: tr ++ [EvRelease]).

(** ** The guard's entry condition as the spec words it *)



(** "Has the required fields and is valid (not expired)". *)
Definition spec_cookie_credential_accepted (c : Credential) : bool :=
  has_required_fields c && negb (is_expired c).

(** ** Closed forms of the login block *)

(** The state after a login that yielded the credential [c] and the save
    that follows it. *)
Definition after_login_saved (w : World) (s : State) (c : Credential) : State :=
  mkState (store s ++ [c]) (Some (length (store s))) false (cookies s)
          (session_credential s)
          (written (w_io w (io_calls s)) c (config_file s))
          (S (logins s)) (S (io_calls s)).

(** The state after a login that returned [None]. *)
Definition after_login_none (s : State) : State :=
  mkState (store s) None false (cookies s) (session_credential s)
          (config_file s) (S (logins s)) (io_calls s).

(** The state after a login that raised. *)
Definition after_login_raised (s : State) : State :=
  mkState (store s) (global_credential s) false (cookies s)
          (session_credential s) (config_file s) (S (logins s)) (io_calls s).

Definition relogin_closed (w : World) (s : State)
    : outcome unit * State * list event :=
  match qrcode_login_example (w_login w (logins s)) with
  | Ret (Some c) =>
      let l := length (store s) in
      (Ret tt, after_login_saved w s c,
       [EvFlag true; EvLogin (Ret (Some l)); EvSave l; EvFlag false])
  | Ret None =>
      (Ret tt, after_login_none s,
       [EvFlag true; EvLogin (Ret None); EvFlag false])
  | Raise e =>
      (Raise e, after_login_raised s,
       [EvFlag true; EvLogin (Raise e); EvFlag false])
  end.

(** A run that comes after the event [e]. *)
Definition preceded_by {A} (e : event) (x : outcome A * State * list event)
    : outcome A * State * list event :=
  (x.1, e :: x.2).

(** A run inside [with credential_lock:]. *)
Definition locked {A} (x : outcome A * State * list event)
    : outcome A * State * list event :=
  (x.1, EvAcquire :: x.2 ++ [EvRelease]).

(** The state after [from_cookies_dict] has worked on the cookies. *)
Definition after_from_cookies (w : World) (s : State) : State :=
  with_cookies (w_cookies_left w (cookies s)) s.

(** The state in which the credential built from the cookies is installed. *)
Definition after_install (s : State) (c : Credential) : State :=
  with_global_credential (Some (length (store s))) (with_store (store s ++ [c]) s).

(** The state after an in-place refresh of the object at [l] to [c']. *)
Definition after_refresh (s : State) (l : loc) (c' : Credential) : State :=
  with_session_credential (Some l) (with_store (<[l := c']> (store s)) s).

(** The responses of the handler. *)
Definition response_busy (w : World) : Response :=
  ApiResponse.error (w_now w) (ErrList ["服务器正在登录，请稍后再试"])
    "Service Unavailable" HTTP_503_SERVICE_UNAVAILABLE.
Definition response_unauthorized (w : World) : Response :=
  ApiResponse.error (w_now w) (ErrStr "无效的用户凭证") "Unauthorized"
    HTTP_401_UNAUTHORIZED.
Definition response_internal (w : World) : Response :=
  ApiResponse.error (w_now w) (ErrList ["服务器处理请求时发生异常"])
    "Internal Error" HTTP_500_INTERNAL_SERVER_ERROR.
Definition response_validation (w : World) (errs : list string) : Response :=
  ApiResponse.error (w_now w) (ErrList errs) "Request Validation Failed"
    HTTP_422_UNPROCESSABLE_ENTITY.
Definition response_bad_request (w : World) : Response :=
  ApiResponse.error (w_now w) (ErrList ["无效的请求参数"]) "Bad Request"
    HTTP_400_BAD_REQUEST.
Definition response_success (w : World) (result : pyval) : Response :=
  ApiResponse.success (w_now w) result "请求成功" HTTP_200_OK.

(** ** Sample credentials, worlds and states *)

Definition sample_fields (key : string) : list (string * pyval) :=
  [("musicid", PInt 10001); ("musickey", PStr key)].

(** Complete and not expired. *)
Definition cred_fresh : Credential :=
  mkCredential (sample_fields "Q_H_L_fresh") true true false false.
(** Complete, expired, and refreshable. *)
Definition cred_stale : Credential :=
  mkCredential (sample_fields "Q_H_L_stale") true true true true.
(** Complete, expired, and not refreshable. *)
Definition cred_spent : Credential :=
  mkCredential (sample_fields "Q_H_L_spent") true true true false.
(** What a refresh turns [cred_stale] into. *)
Definition cred_renewed : Credential :=
  mkCredential (sample_fields "Q_H_L_renewed") true true false false.
(** What a completed QR login yields. *)
Definition cred_scanned : Credential :=
  mkCredential (sample_fields "Q_H_L_scanned") true true false false.

(** The code is scanned on the second poll. *)
Definition script_done : login_script :=
  mkLoginScript (Ret tt)
    [mkPoll false (Ret (SCAN, None)); mkPoll false (Ret (DONE, Some cred_scanned))].
(** The QR code cannot be fetched. *)
Definition script_broken : login_script :=
  mkLoginScript (Raise (Exception "network unreachable")) [].

Definition sample_world (from_cookies : outcome Credential)
    (sc : login_script) (parsed : outcome (pyval * option (list string)))
    : World :=
  mkWorld 1700000000 (fun _ => from_cookies) (fun _ => PDict [])
    (fun _ => sc) (fun _ => Ret cred_renewed) (fun _ => no_faults)
    (fun _ _ _ => parsed) (fun _ _ _ => true).

Definition parsed_ok : outcome (pyval * option (list string)) :=
  Ret (PList [PStr "song"], None).
Definition parsed_expired : outcome (pyval * option (list string)) :=
  Ret (PNone, Some [CREDENTIAL_EXPIRED]).

(** A process that holds the credential [c], with empty cookies. *)
Definition st_holding (c : Credential) : State :=
  mkState [c] (Some 0%nat) false (PDict []) None
          (Some (Json (config_of c))) 0 0.

(** A process that holds no credential and has loaded the cookies [ck]. *)
Definition st_empty (ck : pyval) : State :=
  mkState [] None false ck None (Some (Json (PDict [("cookies", ck)]))) 0 0.

Definition w_fresh : World := sample_world (Ret cred_fresh) script_done parsed_ok.
Definition w_stale : World := sample_world (Ret cred_stale) script_done parsed_ok.
Definition w_broken : World :=
  sample_world (Ret cred_fresh) script_broken parsed_expired.
Definition w_expired : World :=
  sample_world (Ret cred_fresh) script_done parsed_expired.


(** ** The exception handlers (lines 126-142) *)

(** Each handler ignores the request and the exception it is given. *)
Definition _not_found_handler (now : Z) : Response :=
  ApiResponse.error now (ErrStr "请求的资源不存在") "Not Found"
    HTTP_404_NOT_FOUND.
Definition _server_error_handler (now : Z) : Response :=
  ApiResponse.error now (ErrList ["服务器内部错误"]) "Internal Server Error"
    HTTP_500_INTERNAL_SERVER_ERROR.
Definition _validation_error_handler (now : Z) : Response :=
  ApiResponse.error now (ErrList ["参数验证失败"]) "Validation Error"
    HTTP_422_UNPROCESSABLE_ENTITY.

(** What the caller of the route [/{module}/{func}] receives: the response
    of [_api_web], or, when an exception leaves [_api_web], the response of
    the handler registered for status 500 (line 131), to which the
    application hands every exception that nothing else has caught. *)
Definition served (w : World) (module func : string)
    (params : list (string * string)) (s : State)
    : Response * State * list event :=
  match _api_web w module func params s with
  | (Ret r, s', t) => (r, s', t)
  | (Raise _, s', t) => (_server_error_handler (w_now w), s', t)
  end.

(** ** Further readings of runs and states *)

Definition is_refresh (e : event) : bool :=
  match e with EvRefresh _ => true | _ => false end.

(** A turn of the polling loop that only waits: the clock has not run out
    and the code is not yet confirmed (lines 70-73). *)
Definition waiting_poll (p : poll) : bool :=
  negb (timed_out p) &&
  match check_qrcode p with
  | Ret (SCAN, _) => true
  | Ret (CONF, _) => true
  | _ => false
  end.

(** A reference that denotes an object of the store. *)
Definition denotes (s : State) (r : option loc) : bool :=
  match r with
  | Some l => Nat.ltb l (length (store s))
  | None => true
  end.

(** No name of the process refers outside the store. *)
Definition well_formed (s : State) : bool :=
  denotes s (global_credential s) && denotes s (session_credential s).

(** ** Further samples *)

(** The clock has run out at the first turn of the polling loop. *)
Definition script_timeout : login_script :=
  mkLoginScript (Ret tt) [mkPoll true (Ret (SCAN, None))].
(** The code is scanned, confirmed, and the login completes. *)
Definition script_patient : login_script :=
  mkLoginScript (Ret tt)
    [mkPoll false (Ret (SCAN, None)); mkPoll false (Ret (CONF, None));
     mkPoll false (Ret (DONE, Some cred_scanned))].
(** The QR code expires while waiting. *)
Definition script_expired : login_script :=
  mkLoginScript (Ret tt)
    [mkPoll false (Ret (SCAN, None)); mkPoll false (Ret (TIMEOUT, None))].

Definition w_timeout : World :=
  sample_world (Ret cred_fresh) script_timeout parsed_ok.

(** Every write fails after the file has been opened. *)
Definition disk_full : io_faults := mkFaults false true false.
Definition w_disk_full : World :=
  mkWorld 1700000000 (fun _ => Ret cred_fresh) (fun _ => PDict [])
    (fun _ => script_done) (fun _ => Ret cred_renewed) (fun _ => disk_full)
    (fun _ _ _ => parsed_ok) (fun _ _ _ => true).

(** The parser reports an error that only contains the marker. *)
Definition parsed_near_miss : outcome (pyval * option (list string)) :=
  Ret (PNone, Some [String.append CREDENTIAL_EXPIRED " (code 1000)"]).
Definition w_near_miss : World :=
  sample_world (Ret cred_fresh) script_done parsed_near_miss.

(** * Properties *)

(** Unfolds the monad and the program down to the oracles. *)
Ltac mrun :=
  cbv beta iota zeta delta
    [mbind M_bind mret M_ret raise get modify emit lift try_except try_finally
     with_credential_lock deref alloc set_is_logging_in next_io write_json
     read_json get_cookies save_credential_to_file qrcode_login relogin
     from_cookies_dict reconstruct_or_login needs_reconstruction
     ensure_credential refresh refresh_and_publish credential_guard parse
     report_errors dispatch _api_web load_credential_from_file startup
     with_store with_global_credential with_is_logging_in with_cookies
     with_session_credential with_config_file with_logins with_io_calls
     store global_credential is_logging_in cookies session_credential
     config_file logins io_calls app result_of state_of trace_of fst snd].

Lemma run_app {Q} (step : Q -> event -> option Q) (q : Q) (t1 t2 : list event) :
  run step q (t1 ++ t2) =
  match run step q t1 with Some q' => run step q' t2 | None => None end.
Proof.
  revert q. induction t1 as [|e t1 IH]; intros q; simpl; [done|].
  destruct (step q e); [apply IH | done].
Qed.

Lemma lookup_snoc (st : list Credential) c : (st ++ [c]) !! length st = Some c.
Proof. by rewrite list_lookup_middle. Qed.

Lemma relogin_run w s : relogin w s = relogin_closed w s.
Proof.
  unfold relogin_closed, after_login_saved, after_login_none,
    after_login_raised, written.
  mrun.
  destruct (qrcode_login_example _) as [[c|]|e]; mrun; try reflexivity.
  destruct s as [st g fl ck se cf n io]; mrun.
  rewrite lookup_snoc.
  destruct (w_io w io) as [a b c0]; destruct a, b; reflexivity.
Qed.

Lemma needs_reconstruction_run s :
  needs_reconstruction s =
  (match global_credential s with
   | None => Ret true
   | Some l =>
       match store s !! l with
       | Some c => Ret (negb (is_expired c))
       | None => Raise (Exception "no object at this location")
       end
   end, s, []).
Proof.
  mrun. destruct s as [st [l|] fl ck se cf n io]; mrun; [|done].
  destruct (st !! l); reflexivity.
Qed.

Lemma reconstruct_or_login_run w s :
  reconstruct_or_login w s =
  if truthy (cookies s) then
    match w_from_cookies w (cookies s) with
    | Ret c =>
        if cookie_credential_accepted c
        then (Ret tt, after_install (after_from_cookies w s) c, [EvFromCookies])
        else preceded_by EvFromCookies
               (relogin_closed w
                  (with_store (store s ++ [c]) (after_from_cookies w s)))
    | Raise e => preceded_by EvFromCookies
                   (relogin_closed w (after_from_cookies w s))
    end
  else relogin_closed w s.
Proof.
  unfold reconstruct_or_login, try_except, mbind, M_bind at 1.
  unfold get. cbv beta iota.
  destruct (truthy (cookies s)); cbn [negb].
  - unfold from_cookies_dict, mbind, M_bind, emit, modify, lift, alloc, deref.
    destruct (w_from_cookies w (cookies s)) as [c|e]; cbn [app].
    + cbn [store with_store with_cookies]. rewrite lookup_snoc. cbn [app].
      destruct (cookie_credential_accepted c); cbn [negb].
      * reflexivity.
      * unfold raise, preceded_by. rewrite relogin_run.
        destruct (relogin_closed w _) as [[r s'] t]. reflexivity.
    + unfold preceded_by. rewrite relogin_run.
      destruct (relogin_closed w _) as [[r s'] t]. reflexivity.
  - unfold raise. rewrite relogin_run.
    destruct (relogin_closed w s) as [[r s'] t]. reflexivity.
Qed.

Lemma ensure_credential_run w s :
  ensure_credential w s =
  match global_credential s with
  | None => reconstruct_or_login w s
  | Some l =>
      match store s !! l with
      | Some c => if is_expired c then (Ret tt, s, [])
                  else reconstruct_or_login w s
      | None => (Raise (Exception "no object at this location"), s, [])
      end
  end.
Proof.
  unfold ensure_credential, mbind, M_bind. rewrite needs_reconstruction_run.
  destruct (global_credential s) as [l|].
  - destruct (store s !! l) as [c|]; [|done].
    destruct (is_expired c); cbn [negb]; [done|].
    destruct (reconstruct_or_login w s) as [[r s'] t]. reflexivity.
  - destruct (reconstruct_or_login w s) as [[r s'] t]. reflexivity.
Qed.

Lemma refresh_and_publish_run w s :
  refresh_and_publish w s =
  match global_credential s with
  | None =>
      (Raise (AttributeError "'NoneType' object has no attribute 'can_refresh'"),
       s, [])
  | Some l =>
      match store s !! l with
      | None => (Raise (Exception "no object at this location"), s, [])
      | Some c =>
          if can_refresh c then
            match w_refresh w c with
            | Ret c' => (Ret tt, after_refresh s l c', [EvRefresh l])
            | Raise e => (Raise e, s, [EvRefresh l])
            end
          else (Ret tt, with_session_credential (Some l) s, [])
      end
  end.
Proof.
  unfold after_refresh. mrun.
  destruct s as [st [l|] fl ck se cf n io]; mrun; [|done].
  destruct (st !! l) as [c|] eqn:E; [|done].
  destruct (can_refresh c); [|done]. rewrite E.
  destruct (w_refresh w c); reflexivity.
Qed.

Lemma credential_guard_run w s :
  credential_guard w s =
  match ensure_credential w s with
  | (Ret _, s1, te) =>
      match refresh_and_publish w s1 with
      | (r, s2, tp) => (r, s2, EvAcquire :: te ++ tp ++ [EvRelease])
      end
  | (Raise e, s1, te) => (Raise e, s1, EvAcquire :: te ++ [EvRelease])
  end.
Proof.
  unfold credential_guard, with_credential_lock, try_finally, mbind, M_bind, emit.
  cbn [app].
  destruct (ensure_credential w s) as [[[[]|e] s1] te]; [|done].
  destruct (refresh_and_publish w s1) as [[r s2] tp].
  by rewrite app_assoc.
Qed.

Lemma report_errors_run w errs s :
  report_errors w errs s =
  if existsb (String.eqb CREDENTIAL_EXPIRED) errs then
    match locked (relogin_closed w s) with
    | (Ret _, s', t) => (Ret (response_validation w errs), s', t)
    | (Raise e, s', t) => (Raise e, s', t)
    end
  else (Ret (response_validation w errs), s, []).
Proof.
  rewrite <- relogin_run.
  unfold report_errors, mbind, M_bind.
  destruct (existsb _ errs); [|done].
  unfold with_credential_lock, try_finally, mbind, M_bind, emit, locked.
  destruct (relogin w s) as [[[[]|e] s'] t]; cbn [fst snd app mret M_ret].
  - by rewrite app_nil_r.
  - done.
Qed.

Lemma dispatch_run w module func params s :
  dispatch w module func params s =
  match w_parse w module func params with
  | Raise _ => (Ret (response_internal w), s, [EvParse])
  | Ret (result, errs) =>
      if errors_present errs then
        preceded_by EvParse (report_errors w (default [] errs) s)
      else if negb (w_valid w module func params) then
        (Ret (response_bad_request w), s, [EvParse])
      else (Ret (response_success w result), s, [EvParse])
  end.
Proof.
  unfold dispatch, try_except, parse, mbind, M_bind, emit, lift, mret, M_ret.
  destruct (w_parse w module func params) as [[result errs]|e]; cbn [app]; [|done].
  destruct (errors_present errs).
  - unfold preceded_by.
    destruct (report_errors w _ s) as [[r s'] t]. reflexivity.
  - destruct (negb _); reflexivity.
Qed.

Lemma api_web_run w module func params s :
  _api_web w module func params s =
  if is_logging_in s then (Ret (response_busy w), s, [])
  else match credential_guard w s with
       | (Ret _, s1, tg) =>
           match dispatch w module func params s1 with
           | (r, s2, td) => (r, s2, tg ++ td)
           end
       | (Raise _, s1, tg) => (Ret (response_unauthorized w), s1, tg)
       end.
Proof.
  unfold _api_web, mbind, M_bind at 1. unfold get. cbv beta iota.
  destruct (is_logging_in s); [done|].
  unfold try_except, mbind, M_bind, mret, M_ret.
  destruct (credential_guard w s) as [[[[]|e] s1] tg].
  - destruct (dispatch w module func params s1) as [[r s2] td].
    simpl. by rewrite app_nil_r.
  - simpl. by rewrite !app_nil_r.
Qed.

(** ** The shape of every trace *)

Lemma relogin_closed_trace w s : relogin_trace (trace_of (relogin_closed w s)).
Proof.
  unfold relogin_closed.
  destruct (qrcode_login_example _) as [[c|]|e]; constructor.
Qed.

Lemma reconstruct_or_login_trace w s :
  ensure_trace (trace_of (reconstruct_or_login w s)).
Proof.
  rewrite reconstruct_or_login_run.
  destruct (truthy (cookies s)).
  - destruct (w_from_cookies w (cookies s)) as [c|e].
    + destruct (cookie_credential_accepted c).
      * apply ensure_installed.
      * apply ensure_rejected, relogin_closed_trace.
    + apply ensure_rejected, relogin_closed_trace.
  - apply ensure_no_cookies, relogin_closed_trace.
Qed.

Lemma ensure_credential_trace w s :
  ensure_trace (trace_of (ensure_credential w s)).
Proof.
  rewrite ensure_credential_run.
  destruct (global_credential s) as [l|].
  - destruct (store s !! l) as [c|]; [|apply ensure_kept].
    destruct (is_expired c); [apply ensure_kept|].
    apply reconstruct_or_login_trace.
  - apply reconstruct_or_login_trace.
Qed.

Lemma refresh_and_publish_trace w s :
  publish_trace (trace_of (refresh_and_publish w s)).
Proof.
  rewrite refresh_and_publish_run.
  destruct (global_credential s) as [l|]; [|constructor].
  destruct (store s !! l) as [c|]; [|constructor].
  destruct (can_refresh c); [|constructor].
  destruct (w_refresh w c); constructor.
Qed.

Lemma credential_guard_trace w s :
  guard_trace (trace_of (credential_guard w s)).
Proof.
  rewrite credential_guard_run.
  pose proof (ensure_credential_trace w s) as He.
  destruct (ensure_credential w s) as [[[[]|e] s1] te]; cbn in He.
  - pose proof (refresh_and_publish_trace w s1) as Hp.
    destruct (refresh_and_publish w s1) as [[r s2] tp]; cbn in Hp.
    by apply guard_run.
  - apply (guard_run te []); [done | constructor].
Qed.

Lemma dispatch_trace w module func params s :
  trace_of (dispatch w module func params s) = [EvParse] \/
  exists tr, relogin_trace tr /\
    trace_of (dispatch w module func params s)
    = EvParse :: EvAcquire :: tr ++ [EvRelease].
Proof.
  rewrite dispatch_run.
  destruct (w_parse w module func params) as [[result errs]|e]; [|by left].
  destruct (errors_present errs).
  - rewrite report_errors_run.
    destruct (existsb _ _); [|by left].
    right. exists (trace_of (relogin_closed w s)).
    split; [apply relogin_closed_trace|].
    unfold locked, preceded_by.
    destruct (relogin_closed w s) as [[[[]|e] s'] t]; reflexivity.
  - destruct (negb _); by left.
Qed.

Lemma api_web_trace w module func params s :
  handler_trace (trace_of (_api_web w module func params s)).
Proof.
  rewrite api_web_run.
  destruct (is_logging_in s); [apply handler_busy|].
  pose proof (credential_guard_trace w s) as Hg.
  destruct (credential_guard w s) as [[[[]|e] s1] tg]; cbn in Hg.
  - pose proof (dispatch_trace w module func params s1) as Hd.
    destruct (dispatch w module func params s1) as [[r s2] td]; cbn in Hd |- *.
    destruct Hd as [->|(tr & Htr & ->)].
    + by apply handler_dispatched.
    + by apply handler_relogin.
  - by apply handler_unauthorized.
Qed.

Section Discipline.
Context {Q : Type} (step : Q -> event -> option Q) (q_out q_in : Q).
Hypothesis acquire : step q_out EvAcquire = Some q_in.
Hypothesis release : step q_in EvRelease = Some q_out.
Hypothesis from_cookies : step q_in EvFromCookies = Some q_in.
Hypothesis refreshing : forall l, step q_in (EvRefresh l) = Some q_in.
Hypothesis parsing : step q_out EvParse = Some q_out.
Hypothesis relogging : forall t, relogin_trace t -> run step q_in t = Some q_in.

Lemma ensure_trace_run t : ensure_trace t -> run step q_in t = Some q_in.
Proof using from_cookies relogging.
  intros [| |t' H|t' H]; simpl; rewrite ?from_cookies; auto.
Qed.

Lemma publish_trace_run t : publish_trace t -> run step q_in t = Some q_in.
Proof using refreshing.
  intros [|l]; simpl; [done|]. by rewrite refreshing.
Qed.

Lemma guard_trace_run t : guard_trace t -> run step q_out t = Some q_out.
Proof using acquire release from_cookies refreshing relogging.
  intros [te tp He Hp]. simpl. rewrite acquire.
  rewrite run_app, (ensure_trace_run _ He).
  rewrite run_app, (publish_trace_run _ Hp).
  simpl. by rewrite release.
Qed.

Lemma handler_trace_run t : handler_trace t -> run step q_out t = Some q_out.
Proof using All.
  intros [|tg Hg|tg Hg|tg tr Hg Hr].
  - done.
  - by apply guard_trace_run.
  - rewrite run_app, (guard_trace_run _ Hg). simpl. by rewrite parsing.
  - rewrite run_app, (guard_trace_run _ Hg). simpl.
    rewrite parsing, acquire, run_app, (relogging _ Hr). simpl.
    by rewrite release.
Qed.
End Discipline.

Lemma relogin_trace_flag t : relogin_trace t -> run flag_step Idle t = Some Idle.
Proof. by intros []. Qed.

Lemma relogin_trace_lock t : relogin_trace t -> run lock_step true t = Some true.
Proof. by intros []. Qed.

Lemma relogin_trace_persist t :
  relogin_trace t -> run persist_step None t = Some None.
Proof. intros [l| |e]; simpl; [|done..]. by rewrite Nat.eqb_refl. Qed.

Lemma handler_trace_flag t : handler_trace t -> run flag_step Idle t = Some Idle.
Proof.
  apply handler_trace_run with (q_in := Idle); auto using relogin_trace_flag.
Qed.

Lemma handler_trace_lock t : handler_trace t -> run lock_step false t = Some false.
Proof.
  apply handler_trace_run with (q_in := true); auto using relogin_trace_lock.
Qed.

Lemma handler_trace_persist t :
  handler_trace t -> run persist_step None t = Some None.
Proof.
  apply handler_trace_run with (q_in := None); auto using relogin_trace_persist.
Qed.

(** ** The login-in-progress flag *)

Lemma relogin_closed_flag w s :
  is_logging_in (state_of (relogin_closed w s)) = false.
Proof.
  unfold relogin_closed. by destruct (qrcode_login_example _) as [[c|]|e].
Qed.

Lemma reconstruct_or_login_flag w s :
  is_logging_in s = false ->
  is_logging_in (state_of (reconstruct_or_login w s)) = false.
Proof.
  intros Hs. rewrite reconstruct_or_login_run.
  destruct (truthy (cookies s)); [|apply relogin_closed_flag].
  destruct (w_from_cookies w (cookies s)) as [c|e].
  - destruct (cookie_credential_accepted c); [done|].
    apply (relogin_closed_flag w (with_store _ (after_from_cookies w s))).
  - apply (relogin_closed_flag w (after_from_cookies w s)).
Qed.

Lemma ensure_credential_flag w s :
  is_logging_in s = false ->
  is_logging_in (state_of (ensure_credential w s)) = false.
Proof.
  intros Hs. rewrite ensure_credential_run.
  destruct (global_credential s) as [l|];
    [|by apply reconstruct_or_login_flag].
  destruct (store s !! l) as [c|]; [|done].
  destruct (is_expired c); [done|]. by apply reconstruct_or_login_flag.
Qed.

Lemma refresh_and_publish_flag w s :
  is_logging_in (state_of (refresh_and_publish w s)) = is_logging_in s.
Proof.
  rewrite refresh_and_publish_run.
  destruct (global_credential s) as [l|]; [|done].
  destruct (store s !! l) as [c|]; [|done].
  destruct (can_refresh c); [|done]. by destruct (w_refresh w c).
Qed.

Lemma credential_guard_flag w s :
  is_logging_in s = false ->
  is_logging_in (state_of (credential_guard w s)) = false.
Proof.
  intros Hs. rewrite credential_guard_run.
  pose proof (ensure_credential_flag w s Hs) as He.
  destruct (ensure_credential w s) as [[[[]|e] s1] te]; cbn in He; [|done].
  pose proof (refresh_and_publish_flag w s1) as Hp.
  destruct (refresh_and_publish w s1) as [[r s2] tp]. cbn in *. congruence.
Qed.

Lemma report_errors_flag w errs s :
  is_logging_in s = false ->
  is_logging_in (state_of (report_errors w errs s)) = false.
Proof.
  intros Hs. rewrite report_errors_run.
  destruct (existsb _ _); [|done].
  pose proof (relogin_closed_flag w s) as Hr. unfold locked.
  by destruct (relogin_closed w s) as [[[[]|e] s'] t].
Qed.

Lemma dispatch_flag w module func params s :
  is_logging_in s = false ->
  is_logging_in (state_of (dispatch w module func params s)) = false.
Proof.
  intros Hs. rewrite dispatch_run.
  destruct (w_parse w module func params) as [[result errs]|e]; [|done].
  destruct (errors_present errs).
  - by apply report_errors_flag.
  - by destruct (negb _).
Qed.

Lemma api_web_flag w module func params s :
  is_logging_in s = false ->
  is_logging_in (state_of (_api_web w module func params s)) = false.
Proof.
  intros Hs. rewrite api_web_run, Hs.
  pose proof (credential_guard_flag w s Hs) as Hg.
  destruct (credential_guard w s) as [[[[]|e] s1] tg]; cbn in Hg; [|done].
  pose proof (dispatch_flag w module func params s1 Hg) as Hd.
  by destruct (dispatch w module func params s1) as [[r s2] td].
Qed.

(** The flag in the state is the flag the trace records. *)

Lemma relogin_closed_tracks w s :
  is_logging_in (state_of (relogin_closed w s))
  = flag_after (is_logging_in s) (trace_of (relogin_closed w s)).
Proof.
  unfold relogin_closed. by destruct (qrcode_login_example _) as [[c|]|e].
Qed.

Lemma reconstruct_or_login_tracks w s :
  is_logging_in (state_of (reconstruct_or_login w s))
  = flag_after (is_logging_in s) (trace_of (reconstruct_or_login w s)).
Proof.
  rewrite reconstruct_or_login_run.
  destruct (truthy (cookies s)); [|apply relogin_closed_tracks].
  destruct (w_from_cookies w (cookies s)) as [c|e].
  - destruct (cookie_credential_accepted c); [done|].
    apply (relogin_closed_tracks w (with_store _ (after_from_cookies w s))).
  - apply (relogin_closed_tracks w (after_from_cookies w s)).
Qed.

Lemma ensure_credential_tracks w s :
  is_logging_in (state_of (ensure_credential w s))
  = flag_after (is_logging_in s) (trace_of (ensure_credential w s)).
Proof.
  rewrite ensure_credential_run.
  destruct (global_credential s) as [l|]; [|apply reconstruct_or_login_tracks].
  destruct (store s !! l) as [c|]; [|done].
  destruct (is_expired c); [done|]. apply reconstruct_or_login_tracks.
Qed.

Lemma refresh_and_publish_tracks w s :
  is_logging_in (state_of (refresh_and_publish w s))
  = flag_after (is_logging_in s) (trace_of (refresh_and_publish w s)).
Proof.
  rewrite refresh_and_publish_run.
  destruct (global_credential s) as [l|]; [|done].
  destruct (store s !! l) as [c|]; [|done].
  destruct (can_refresh c); [|done]. by destruct (w_refresh w c).
Qed.

Lemma credential_guard_tracks w s :
  is_logging_in (state_of (credential_guard w s))
  = flag_after (is_logging_in s) (trace_of (credential_guard w s)).
Proof.
  rewrite credential_guard_run.
  pose proof (ensure_credential_tracks w s) as He.
  destruct (ensure_credential w s) as [[[[]|e] s1] te]; cbn in He.
  - pose proof (refresh_and_publish_tracks w s1) as Hp.
    destruct (refresh_and_publish w s1) as [[r s2] tp]. cbn in Hp |- *.
    change (EvAcquire :: te ++ tp ++ [EvRelease])
      with ([EvAcquire] ++ te ++ tp ++ [EvRelease]).
    unfold flag_after in *. rewrite !foldl_app. cbn. congruence.
  - cbn. change (EvAcquire :: te ++ [EvRelease])
      with ([EvAcquire] ++ te ++ [EvRelease]).
    unfold flag_after in *. rewrite !foldl_app. cbn. congruence.
Qed.

Lemma dispatch_tracks w module func params s :
  is_logging_in (state_of (dispatch w module func params s))
  = flag_after (is_logging_in s) (trace_of (dispatch w module func params s)).
Proof.
  rewrite dispatch_run.
  destruct (w_parse w module func params) as [[result errs]|e]; [|done].
  destruct (errors_present errs); [|by destruct (negb _)].
  rewrite report_errors_run.
  destruct (existsb _ (default [] errs)); [|done].
  unfold locked, preceded_by, relogin_closed.
  by destruct (qrcode_login_example _) as [[c|]|e].
Qed.

Lemma api_web_tracks w module func params s :
  is_logging_in (state_of (_api_web w module func params s))
  = flag_after (is_logging_in s) (trace_of (_api_web w module func params s)).
Proof.
  rewrite api_web_run.
  destruct (is_logging_in s) eqn:Hs; [done|].
  pose proof (credential_guard_tracks w s) as Hg. rewrite Hs in Hg.
  destruct (credential_guard w s) as [[[[]|e] s1] tg]; cbn in Hg; [|done].
  pose proof (dispatch_tracks w module func params s1) as Hd.
  destruct (dispatch w module func params s1) as [[r s2] td]. cbn in Hd |- *.
  unfold flag_after in *. rewrite foldl_app. congruence.
Qed.

(** C3. A handler run that finds the flag up answers "busy" and never
    begins the guard. Otherwise the flag is down when the guard begins, down
    when the guard ends whether it returned or raised, and down when the
    handler ends whether it returned a response or raised; in between it is
    up only from just before a login to just after it (and the save of its
    credential). The flag at the end is what the writes of the run left. *)
Theorem flag_down_around_guard w module func params s :
  (is_logging_in s = true /\
   _api_web w module func params s = (Ret (response_busy w), s, []))
  \/
  (is_logging_in s = false /\
   is_logging_in (state_of (credential_guard w s)) = false /\
   is_logging_in (state_of (_api_web w module func params s)) = false /\
   run flag_step Idle (trace_of (_api_web w module func params s)) = Some Idle /\
   flag_after false (trace_of (_api_web w module func params s))
   = is_logging_in (state_of (_api_web w module func params s))).
Proof.
  destruct (is_logging_in s) eqn:Hs.
  - left. split; [done|]. by rewrite api_web_run, Hs.
  - right. split; [done|].
    split; [by apply credential_guard_flag|].
    split; [by apply api_web_flag|].
    split; [apply handler_trace_flag, api_web_trace|].
    by rewrite api_web_tracks, Hs.
Qed.

(** C6 (amended). In every handler run the lock is taken before the flag is
    raised and given back after the flag is lowered, so every login runs
    while the lock is held; the lock is free again when the handler ends. *)
Theorem login_only_under_lock w module func params s :
  run lock_step false (trace_of (_api_web w module func params s)) = Some false.
Proof. apply handler_trace_lock, api_web_trace. Qed.

(** ** Storage *)

Lemma save_credential_to_file_run w l s :
  save_credential_to_file w l s =
  (Ret tt,
   match store s !! l with
   | Some c =>
       with_config_file (written (w_io w (io_calls s)) c (config_file s))
         (with_io_calls (S (io_calls s)) s)
   | None => with_io_calls (S (io_calls s)) s
   end,
   [EvSave l]).
Proof.
  unfold written. mrun.
  destruct s as [st g fl ck se cf n io]; mrun.
  destruct (st !! l) as [c|]; [|done].
  destruct (w_io w io) as [a b c0]; destruct a, b; reflexivity.
Qed.

Lemma relogin_closed_quiet w s :
  existsb is_save (trace_of (relogin_closed w s)) = false ->
  config_file (state_of (relogin_closed w s)) = config_file s.
Proof.
  unfold relogin_closed.
  by destruct (qrcode_login_example _) as [[c|]|e].
Qed.

Lemma reconstruct_or_login_quiet w s :
  existsb is_save (trace_of (reconstruct_or_login w s)) = false ->
  config_file (state_of (reconstruct_or_login w s)) = config_file s.
Proof.
  rewrite reconstruct_or_login_run.
  destruct (truthy (cookies s)); [|apply relogin_closed_quiet].
  destruct (w_from_cookies w (cookies s)) as [c|e].
  - destruct (cookie_credential_accepted c); [done|].
    apply (relogin_closed_quiet w (with_store _ (after_from_cookies w s))).
  - apply (relogin_closed_quiet w (after_from_cookies w s)).
Qed.

Lemma ensure_credential_quiet w s :
  existsb is_save (trace_of (ensure_credential w s)) = false ->
  config_file (state_of (ensure_credential w s)) = config_file s.
Proof.
  rewrite ensure_credential_run.
  destruct (global_credential s) as [l|]; [|apply reconstruct_or_login_quiet].
  destruct (store s !! l) as [c|]; [|done].
  destruct (is_expired c); [done|]. apply reconstruct_or_login_quiet.
Qed.

Lemma refresh_and_publish_quiet w s :
  config_file (state_of (refresh_and_publish w s)) = config_file s /\
  existsb is_save (trace_of (refresh_and_publish w s)) = false.
Proof.
  rewrite refresh_and_publish_run.
  destruct (global_credential s) as [l|]; [|done].
  destruct (store s !! l) as [c|]; [|done].
  destruct (can_refresh c); [|done]. by destruct (w_refresh w c).
Qed.

Lemma credential_guard_quiet w s :
  existsb is_save (trace_of (credential_guard w s)) = false ->
  config_file (state_of (credential_guard w s)) = config_file s.
Proof.
  rewrite credential_guard_run.
  pose proof (ensure_credential_quiet w s) as He.
  destruct (ensure_credential w s) as [[[[]|e] s1] te]; cbn in He.
  - pose proof (refresh_and_publish_quiet w s1) as [Hp _].
    destruct (refresh_and_publish w s1) as [[r s2] tp]. cbn in *.
    rewrite existsb_app. intros [H _]%orb_false_elim.
    rewrite Hp. by apply He.
  - cbn. rewrite existsb_app. intros [H _]%orb_false_elim. by apply He.
Qed.

Lemma dispatch_quiet w module func params s :
  existsb is_save (trace_of (dispatch w module func params s)) = false ->
  config_file (state_of (dispatch w module func params s)) = config_file s.
Proof.
  rewrite dispatch_run.
  destruct (w_parse w module func params) as [[result errs]|e]; [|done].
  destruct (errors_present errs); [|by destruct (negb _)].
  rewrite report_errors_run.
  destruct (existsb _ (default [] errs)); [|done].
  pose proof (relogin_closed_quiet w s) as Hr. unfold locked, preceded_by.
  destruct (relogin_closed w s) as [[[[]|e] s'] t]; cbn in *;
    rewrite existsb_app; intros [H _]%orb_false_elim; by apply Hr.
Qed.

Lemma api_web_quiet w module func params s :
  existsb is_save (trace_of (_api_web w module func params s)) = false ->
  config_file (state_of (_api_web w module func params s)) = config_file s.
Proof.
  rewrite api_web_run.
  destruct (is_logging_in s); [done|].
  pose proof (credential_guard_quiet w s) as Hg.
  destruct (credential_guard w s) as [[[[]|e] s1] tg]; cbn in Hg; [|done].
  pose proof (dispatch_quiet w module func params s1) as Hd.
  destruct (dispatch w module func params s1) as [[r s2] td]. cbn in *.
  rewrite existsb_app. intros [H1 H2]%orb_false_elim.
  rewrite Hd, Hg; done.
Qed.

Lemma refresh_quiet w l s :
  config_file (state_of (refresh w l s)) = config_file s /\
  trace_of (refresh w l s) = [EvRefresh l].
Proof.
  mrun. destruct s as [st g fl ck se cf n io]; mrun.
  destruct (st !! l) as [c|]; [|done]. by destruct (w_refresh w c).
Qed.

(** C4 (amended). In every handler run a login that yields a credential is
    followed at once by [save_credential_to_file] on that credential, and
    nothing else is saved; a save that meets no fault leaves in the file
    exactly the document of the credential, whatever the file held; a
    refresh emits no save and leaves the file as it was; a run without a
    save leaves the file as it was. *)
Theorem login_is_persisted_refresh_is_not :
  (forall w module func params s,
     run persist_step None (trace_of (_api_web w module func params s))
     = Some None) /\
  (forall w l c s,
     store s !! l = Some c ->
     open_w_fails (w_io w (io_calls s)) = false ->
     dump_fails (w_io w (io_calls s)) = false ->
     config_file (state_of (save_credential_to_file w l s))
     = Some (Json (config_of c))) /\
  (forall w l s,
     config_file (state_of (refresh w l s)) = config_file s /\
     trace_of (refresh w l s) = [EvRefresh l]) /\
  (forall w module func params s,
     existsb is_save (trace_of (_api_web w module func params s)) = false ->
     config_file (state_of (_api_web w module func params s)) = config_file s).
Proof.
  split; [|split; [|split]].
  - intros. apply handler_trace_persist, api_web_trace.
  - intros w l c s Hl Ho Hd. rewrite save_credential_to_file_run, Hl.
    unfold written. cbn. by rewrite Ho, Hd.
  - apply refresh_quiet.
  - apply api_web_quiet.
Qed.

(** ** Refresh *)

Lemma relogin_trace_no_refresh l t :
  relogin_trace t -> existsb (is_refresh_of l) t = false.
Proof. by intros []. Qed.

Lemma ensure_trace_no_refresh l t :
  ensure_trace t -> existsb (is_refresh_of l) t = false.
Proof.
  intros [| |t' H|t' H]; cbn; auto using relogin_trace_no_refresh.
Qed.

(** C5 (amended). In the guard, [refresh()] is invoked on the credential at
    [l] exactly when lines 164-183 ended normally with the slot holding [l]
    and [can_refresh()] true on it, whether the credential was there before
    or was installed by the same request; a refresh that succeeds changes
    the object at [l] and leaves the slot, and the session, pointing at
    [l]. *)
Theorem refresh_follows_any_credential w s :
  (forall l,
     existsb (is_refresh_of l) (trace_of (credential_guard w s)) = true <->
     exists c,
       result_of (ensure_credential w s) = Ret tt /\
       global_credential (state_of (ensure_credential w s)) = Some l /\
       store (state_of (ensure_credential w s)) !! l = Some c /\
       can_refresh c = true) /\
  (forall l c c',
     result_of (ensure_credential w s) = Ret tt ->
     global_credential (state_of (ensure_credential w s)) = Some l ->
     store (state_of (ensure_credential w s)) !! l = Some c ->
     can_refresh c = true ->
     w_refresh w c = Ret c' ->
     result_of (credential_guard w s) = Ret tt /\
     global_credential (state_of (credential_guard w s)) = Some l /\
     session_credential (state_of (credential_guard w s)) = Some l /\
     store (state_of (credential_guard w s))
     = <[l := c']> (store (state_of (ensure_credential w s)))).
Proof.
  rewrite credential_guard_run.
  pose proof (ensure_credential_trace w s) as He.
  destruct (ensure_credential w s) as [[r1 s1] te]. cbn in He |- *.
  split.
  - intros l.
    destruct r1 as [[]|e].
    + rewrite refresh_and_publish_run.
      destruct (global_credential s1) as [l1|] eqn:Hg.
      * destruct (store s1 !! l1) as [c|] eqn:Hl.
        -- destruct (can_refresh c) eqn:Hc.
           ++ assert (existsb (is_refresh_of l)
                        (EvAcquire :: te ++ [EvRefresh l1] ++ [EvRelease])
                      = Nat.eqb l l1) as Ht.
              { cbn. rewrite existsb_app, (ensure_trace_no_refresh l te He).
                cbn. by rewrite orb_false_r. }
              destruct (w_refresh w c) as [c'|e]; cbn [trace_of snd];
                rewrite Ht; (split;
                 [intros ->%Nat.eqb_eq; eauto
                 |intros (c0 & _ & [= ->] & _); apply Nat.eqb_refl]).
           ++ cbn. rewrite existsb_app, (ensure_trace_no_refresh l te He). cbn.
              split; [done|]. intros (c0 & _ & [= ->] & Hl' & Hc').
              congruence.
        -- cbn. rewrite existsb_app, (ensure_trace_no_refresh l te He). cbn.
           split; [done|]. intros (c0 & _ & [= ->] & Hl' & _). congruence.
      * cbn. rewrite existsb_app, (ensure_trace_no_refresh l te He). cbn.
        split; [done|]. by intros (c0 & _ & [=] & _).
    + cbn. rewrite existsb_app, (ensure_trace_no_refresh l te He). cbn.
      split; [done|]. by intros (c0 & [=] & _).
  - intros l c c' -> Hg Hl Hc Hr.
    rewrite refresh_and_publish_run, Hg, Hl, Hc, Hr. done.
Qed.

(** ** Errors reported by the dispatcher *)

Lemma count_app p t1 t2 : count p (t1 ++ t2) = (count p t1 + count p t2)%nat.
Proof. unfold count. by rewrite List.filter_app, length_app. Qed.

Lemma relogin_trace_counts t :
  relogin_trace t -> count is_parse t = 0%nat /\ count is_login t = 1%nat.
Proof. by intros []. Qed.

Lemma ensure_trace_no_parse t : ensure_trace t -> count is_parse t = 0%nat.
Proof.
  intros [| |t' H|t' H]; try done; by apply relogin_trace_counts in H as [H _].
Qed.

Lemma guard_trace_no_parse t : guard_trace t -> count is_parse t = 0%nat.
Proof.
  intros [te tp He Hp].
  change (EvAcquire :: te ++ tp ++ [EvRelease])
    with ([EvAcquire] ++ te ++ tp ++ [EvRelease]).
  rewrite !count_app, (ensure_trace_no_parse _ He).
  by destruct Hp.
Qed.

(** C7 (amended). When the guard has passed and the parser returns an error
    list that contains the credential-expired marker, the handler parses
    once, then runs one re-login under the lock with the flag raised and
    lowered around it, saving the new credential when there is one. If the
    login did not raise, the handler returns the parser's error list under
    status 422; if it raised, that exception leaves the handler. *)
Theorem expired_marker_relogin_once w module func params s s1 tg result errs :
  is_logging_in s = false ->
  credential_guard w s = (Ret tt, s1, tg) ->
  w_parse w module func params = Ret (result, Some errs) ->
  existsb (String.eqb CREDENTIAL_EXPIRED) errs = true ->
  exists tr,
    relogin_trace tr /\
    trace_of (_api_web w module func params s)
    = tg ++ EvParse :: EvAcquire :: tr ++ [EvRelease] /\
    count is_login tr = 1%nat /\
    count is_parse (trace_of (_api_web w module func params s)) = 1%nat /\
    is_logging_in (state_of (_api_web w module func params s)) = false /\
    state_of (_api_web w module func params s)
    = state_of (relogin_closed w s1) /\
    result_of (_api_web w module func params s)
    = match qrcode_login_example (w_login w (logins s1)) with
      | Ret _ => Ret (response_validation w errs)
      | Raise e => Raise e
      end /\
    (forall c,
       qrcode_login_example (w_login w (logins s1)) = Ret (Some c) ->
       global_credential (state_of (_api_web w module func params s))
       = Some (length (store s1)) /\
       config_file (state_of (_api_web w module func params s))
       = written (w_io w (io_calls s1)) c (config_file s1)) /\
    status_code (response_validation w errs) = HTTP_422_UNPROCESSABLE_ENTITY /\
    envelope_errors (response_validation w errs) = Some (str_list errs).
Proof.
  intros Hs Hg Hp Hm.
  pose proof (credential_guard_trace w s) as Hgt. rewrite Hg in Hgt. cbn in Hgt.
  pose proof (api_web_flag w module func params s Hs) as Hflag.
  revert Hflag.
  rewrite api_web_run, Hs, Hg, dispatch_run, Hp.
  assert (errors_present (Some errs) = true) as ->.
  { destruct errs; [discriminate|done]. }
  rewrite report_errors_run. cbn [from_option id]. rewrite Hm.
  intros Hflag.
  pose proof (relogin_closed_trace w s1) as Hr.
  pose proof (relogin_trace_counts _ Hr) as [Hr1 Hr2].
  exists (trace_of (relogin_closed w s1)).
  assert (envelope_errors (response_validation w errs) = Some (str_list errs))
    as Henv.
  { destruct errs; [discriminate|reflexivity]. }
  assert (forall tr, count is_parse tr = 0%nat ->
            count is_parse (tg ++ EvParse :: EvAcquire :: tr ++ [EvRelease])
            = 1%nat) as Hcount.
  { intros tr Htr.
    change (EvParse :: EvAcquire :: tr ++ [EvRelease])
      with ([EvParse; EvAcquire] ++ tr ++ [EvRelease]).
    rewrite !count_app, Htr, (guard_trace_no_parse _ Hgt). done. }
  specialize (Hcount _ Hr1).
  clear Hm Hp Hg Hs. unfold relogin_closed in *.
  destruct (qrcode_login_example (w_login w (logins s1))) as [[c|]|e];
    cbn in Hr, Hr2, Hflag, Hcount |- *; repeat split; auto;
    congruence.
Qed.

(** ** The envelope *)

Lemma init_keys now st msg d e :
  has_key "code" (content (ApiResponse.init now st msg d e)) = true /\
  has_key "message" (content (ApiResponse.init now st msg d e)) = true /\
  has_key "timestamp" (content (ApiResponse.init now st msg d e)) = true /\
  has_key "data" (content (ApiResponse.init now st msg d e)) = negb (is_none d) /\
  has_key "errors" (content (ApiResponse.init now st msg d e)) = errors_truthy e.
Proof.
  unfold ApiResponse.init, model_dict, processed_errors, has_key. cbn.
  destruct e as [|x|xs]; cbn;
    try (destruct (negb (String.eqb x "")));
    try (destruct (negb (Nat.eqb (length xs) 0)));
    destruct d; done.
Qed.

Lemma report_errors_response w errs s resp :
  result_of (report_errors w errs s) = Ret resp -> resp = response_validation w errs.
Proof.
  rewrite report_errors_run.
  destruct (existsb _ _); [|by intros [= <-]].
  unfold locked.
  destruct (relogin_closed w s) as [[[[]|e] s'] t]; cbn; [|done].
  by intros [= <-].
Qed.

Lemma api_web_response w module func params s resp :
  result_of (_api_web w module func params s) = Ret resp ->
  resp = response_busy w \/ resp = response_unauthorized w \/
  resp = response_internal w \/ resp = response_bad_request w \/
  (exists e es, resp = response_validation w (e :: es)) \/
  (exists result, resp = response_success w result).
Proof.
  rewrite api_web_run.
  destruct (is_logging_in s); [intros [= <-]; auto|].
  destruct (credential_guard w s) as [[[[]|e] s1] tg];
    [|intros [= <-]; auto].
  rewrite dispatch_run.
  destruct (w_parse w module func params) as [[result errs]|e];
    [|intros [= <-]; auto].
  destruct errs as [[|e es]|]; cbn [errors_present length Nat.eqb negb].
  - destruct (negb _); intros [= <-]; eauto 10.
  - unfold preceded_by. cbn [from_option id].
    pose proof (report_errors_response w (e :: es) s1) as Hr.
    destruct (report_errors w (e :: es) s1) as [[r s2] t]. cbn in Hr |- *.
    intros ->. rewrite (Hr resp eq_refl). eauto 10.
  - destruct (negb _); intros [= <-]; eauto 10.
Qed.

(** C8 (amended). Every envelope carries [code], [message] and [timestamp];
    [data] is present exactly when it is not [None] and [errors] exactly
    when errors were given. Of the responses the handler returns, those with
    status 200 carry no [errors] and all others carry [errors] and no
    [data]: none carries all five fields. *)
Theorem envelope_omits_null_fields :
  (forall now st msg d e,
     has_key "code" (content (ApiResponse.init now st msg d e)) = true /\
     has_key "message" (content (ApiResponse.init now st msg d e)) = true /\
     has_key "timestamp" (content (ApiResponse.init now st msg d e)) = true /\
     has_key "data" (content (ApiResponse.init now st msg d e))
     = negb (is_none d) /\
     has_key "errors" (content (ApiResponse.init now st msg d e))
     = errors_truthy e) /\
  (forall w module func params s resp,
     result_of (_api_web w module func params s) = Ret resp ->
     has_key "code" (content resp) = true /\
     has_key "message" (content resp) = true /\
     has_key "timestamp" (content resp) = true /\
     has_key "errors" (content resp) = negb (Z.eqb (status_code resp) HTTP_200_OK) /\
     (has_key "data" (content resp) = true -> status_code resp = HTTP_200_OK) /\
     has_all_five resp = false).
Proof.
  split; [apply init_keys|].
  intros w module func params s resp H.
  apply api_web_response in H
    as [->|[->|[->|[->|[(e & es & ->)|(result & ->)]]]]];
    try (unfold has_all_five; cbn; by repeat split).
  unfold has_all_five, response_success, ApiResponse.success.
  pose proof (init_keys (w_now w) HTTP_200_OK "请求成功" result ErrNone)
    as (-> & -> & -> & -> & ->).
  cbn. repeat split. by rewrite andb_false_r.
Qed.

(** C10. An error response built from a non-empty string carries the
    one-element list of that string; built from a non-empty list, that list
    unchanged; built from [None], the empty string or the empty list, no
    [errors] entry at all. *)
Theorem errors_normalized now msg st :
  (forall s, s <> "" ->
     envelope_errors (ApiResponse.error now (ErrStr s) msg st)
     = Some (PList [PStr s])) /\
  (forall l, l <> [] ->
     envelope_errors (ApiResponse.error now (ErrList l) msg st)
     = Some (str_list l)) /\
  envelope_errors (ApiResponse.error now ErrNone msg st) = None /\
  envelope_errors (ApiResponse.error now (ErrStr "") msg st) = None /\
  envelope_errors (ApiResponse.error now (ErrList []) msg st) = None.
Proof.
  repeat split.
  - intros s Hs. unfold envelope_errors, ApiResponse.error, ApiResponse.init,
      model_dict, processed_errors. cbn.
    destruct (String.eqb_spec s ""); [done|]. reflexivity.
  - intros l Hl. unfold envelope_errors, ApiResponse.error, ApiResponse.init,
      model_dict, processed_errors. cbn.
    destruct l; [done|]. reflexivity.
Qed.

(** ** Entering the reconstruction branch *)


(** What lines 166-174 decide on the credential built from the cookies:
    the login runs exactly when the test of line 171 rejects it. *)
Lemma cookie_credential_decision w s c :
  truthy (cookies s) = true ->
  w_from_cookies w (cookies s) = Ret c ->
  existsb is_login (trace_of (reconstruct_or_login w s))
  = negb (cookie_credential_accepted c).
Proof.
  intros Hck Hc. rewrite reconstruct_or_login_run, Hck, Hc.
  destruct (cookie_credential_accepted c); [done|].
  unfold preceded_by, relogin_closed.
  by destruct (qrcode_login_example _) as [[c'|]|e].
Qed.


(** ** The storage helpers never raise *)

Lemma load_credential_from_file_total w s :
  exists v, result_of (load_credential_from_file w s) = Ret v.
Proof.
  mrun. destruct s as [st g fl ck se cf n io]; mrun.
  destruct (w_io w io) as [a b c]; mrun.
  destruct cf as [[v|]|]; cbn.
  - destruct c; [eauto|]. destruct v; eauto.
  - destruct c; eauto.
  - destruct a; [eauto|]. destruct b; [eauto|]. destruct c; eauto.
Qed.

Lemma load_credential_from_file_unreadable w s :
  config_file s = Some Garbage \/ open_r_fails (w_io w (io_calls s)) = true ->
  result_of (load_credential_from_file w s) = Ret (PDict []).
Proof.
  mrun. destruct s as [st g fl ck se cf n io]; mrun.
  destruct (w_io w io) as [a b c]; mrun. cbn.
  intros [->| ->]; cbn.
  - by destruct c.
  - destruct cf as [[v|]|]; cbn; try done. destruct a; [done|]. by destruct b.
Qed.

Lemma save_credential_to_file_total w l s :
  result_of (save_credential_to_file w l s) = Ret tt /\
  global_credential (state_of (save_credential_to_file w l s))
  = global_credential s /\
  store (state_of (save_credential_to_file w l s)) = store s.
Proof.
  rewrite save_credential_to_file_run. by destruct (store s !! l).
Qed.

(** ** Concrete runs *)



(** C2: the cookies hold a complete credential that is expired. Line 171
    accepts it, it is installed as the current credential and no QR login
    runs. *)
Lemma expired_cookie_credential_is_installed :
  has_required_fields cred_stale = true /\
  is_expired cred_stale = true /\
  spec_cookie_credential_accepted cred_stale = false /\
  cookie_credential_accepted cred_stale = true /\
  reconstruct_or_login w_stale (st_empty (PDict (sample_fields "Q_H_L_stale")))
  = (Ret tt,
     mkState [cred_stale] (Some 0%nat) false (PDict []) None
       (Some (Json (PDict [("cookies", PDict (sample_fields "Q_H_L_stale"))])))
       0 0,
     [EvFromCookies]).
Proof. repeat split. Qed.

(** The cookies of the process after a request that built a credential
    from them: the call has used them up. *)
Lemma cookies_are_used_up :
  cookies (st_empty (PDict (sample_fields "Q_H_L_stale")))
  = PDict (sample_fields "Q_H_L_stale") /\
  cookies (state_of (_api_web w_stale "song" "get_detail" []
                       (st_empty (PDict (sample_fields "Q_H_L_stale")))))
  = PDict [].
Proof. repeat split. Qed.

(** C4, as stated, fails: the held credential is refreshed in place and the
    request succeeds, but the file still holds the fields it had before the
    refresh. *)
Lemma refresh_leaves_file_stale :
  result_of (_api_web w_fresh "song" "get_detail" [] (st_holding cred_stale))
  = Ret (response_success w_fresh (PList [PStr "song"])) /\
  trace_of (_api_web w_fresh "song" "get_detail" [] (st_holding cred_stale))
  = [EvAcquire; EvRefresh 0%nat; EvRelease; EvParse] /\
  store (state_of (_api_web w_fresh "song" "get_detail" []
                     (st_holding cred_stale)))
  = [cred_renewed] /\
  config_file (state_of (_api_web w_fresh "song" "get_detail" []
                           (st_holding cred_stale)))
  = Some (Json (config_of cred_stale)) /\
  config_file (state_of (_api_web w_fresh "song" "get_detail" []
                           (st_holding cred_stale)))
  <> Some (Json (config_of cred_renewed)).
Proof. repeat split. discriminate. Qed.

Lemma save_overwrites_witness :
  store (with_store [cred_renewed] (st_holding cred_stale)) !! 0%nat
  = Some cred_renewed /\
  open_w_fails (w_io w_fresh 0) = false /\
  dump_fails (w_io w_fresh 0) = false /\
  config_file (with_store [cred_renewed] (st_holding cred_stale))
  = Some (Json (config_of cred_stale)) /\
  config_file (state_of (save_credential_to_file w_fresh 0%nat
     (with_store [cred_renewed] (st_holding cred_stale))))
  = Some (Json (config_of cred_renewed)).
Proof.
  do 4 (split; [reflexivity|]).
  apply (proj1 (proj2 login_is_persisted_refresh_is_not)); reflexivity.
Defined.

(** C5, as stated, fails: no credential exists, one is built from the
    cookies, and the same request refreshes it. *)
Lemma reconstructed_credential_is_refreshed :
  global_credential (st_empty (PDict (sample_fields "Q_H_L_stale"))) = None /\
  trace_of (credential_guard w_stale
              (st_empty (PDict (sample_fields "Q_H_L_stale"))))
  = [EvAcquire; EvFromCookies; EvRefresh 0%nat; EvRelease] /\
  store (state_of (credential_guard w_stale
                     (st_empty (PDict (sample_fields "Q_H_L_stale")))))
  = [cred_renewed].
Proof. repeat split. Qed.

Lemma refresh_in_place_witness :
  result_of (ensure_credential w_stale
               (st_empty (PDict (sample_fields "Q_H_L_stale")))) = Ret tt /\
  global_credential
    (state_of (ensure_credential w_stale
                 (st_empty (PDict (sample_fields "Q_H_L_stale")))))
  = Some 0%nat /\
  store
    (state_of (ensure_credential w_stale
                 (st_empty (PDict (sample_fields "Q_H_L_stale"))))) !! 0%nat
  = Some cred_stale /\
  can_refresh cred_stale = true /\
  w_refresh w_stale cred_stale = Ret cred_renewed /\
  global_credential
    (state_of (credential_guard w_stale
                 (st_empty (PDict (sample_fields "Q_H_L_stale")))))
  = Some 0%nat /\
  store
    (state_of (credential_guard w_stale
                 (st_empty (PDict (sample_fields "Q_H_L_stale")))))
  = [cred_renewed].
Proof.
  do 5 (split; [reflexivity|]).
  destruct (proj2 (refresh_follows_any_credential w_stale
                     (st_empty (PDict (sample_fields "Q_H_L_stale"))))
              0%nat cred_stale cred_renewed
              eq_refl eq_refl eq_refl eq_refl eq_refl)
    as (_ & Hg & _ & Hst).
  split; [exact Hg|]. rewrite Hst. reflexivity.
Defined.

(** C6, as stated, fails: the login of a process without credential runs
    between the taking and the release of the lock. *)
Lemma login_runs_under_the_lock :
  trace_of (_api_web w_fresh "song" "get_detail" [] (st_empty (PDict [])))
  = [EvAcquire; EvFlag true; EvLogin (Ret (Some 0%nat)); EvSave 0%nat;
     EvFlag false; EvRelease; EvParse] /\
  run spec_lock_step false
    (trace_of (_api_web w_fresh "song" "get_detail" [] (st_empty (PDict []))))
  = None.
Proof. repeat split. Qed.

(** C7, as stated, fails: the parser reports the expired credential, the
    login that follows raises, and the handler returns no response. *)
Lemma raising_login_escapes_handler :
  w_parse w_broken "song" "get_detail" []
  = Ret (PNone, Some [CREDENTIAL_EXPIRED]) /\
  credential_guard w_broken (st_holding cred_spent)
  = (Ret tt, with_session_credential (Some 0%nat) (st_holding cred_spent),
     [EvAcquire; EvRelease]) /\
  result_of (_api_web w_broken "song" "get_detail" [] (st_holding cred_spent))
  = Raise (Exception "network unreachable") /\
  trace_of (_api_web w_broken "song" "get_detail" [] (st_holding cred_spent))
  = [EvAcquire; EvRelease; EvParse; EvAcquire; EvFlag true;
     EvLogin (Raise (Exception "network unreachable")); EvFlag false;
     EvRelease].
Proof. repeat split. Qed.

Lemma expired_marker_witness :
  is_logging_in (st_holding cred_spent) = false /\
  credential_guard w_expired (st_holding cred_spent)
  = (Ret tt, with_session_credential (Some 0%nat) (st_holding cred_spent),
     [EvAcquire; EvRelease]) /\
  w_parse w_expired "song" "get_detail" []
  = Ret (PNone, Some [CREDENTIAL_EXPIRED]) /\
  existsb (String.eqb CREDENTIAL_EXPIRED) [CREDENTIAL_EXPIRED] = true /\
  result_of (_api_web w_expired "song" "get_detail" [] (st_holding cred_spent))
  = Ret (response_validation w_expired [CREDENTIAL_EXPIRED]) /\
  count is_parse
    (trace_of (_api_web w_expired "song" "get_detail" [] (st_holding cred_spent)))
  = 1%nat.
Proof.
  do 4 (split; [reflexivity|]).
  destruct (expired_marker_relogin_once w_expired "song" "get_detail" []
              (st_holding cred_spent) _ _ PNone [CREDENTIAL_EXPIRED]
              eq_refl eq_refl eq_refl eq_refl)
    as (tr & _ & _ & _ & Hparse & _ & _ & Hres & _).
  split; [exact Hres | exact Hparse].
Defined.

(** C8, as stated, fails: a success carries no [errors] entry and a failure
    no [data] entry. *)
Lemma no_response_has_all_five_fields :
  result_of (_api_web w_fresh "song" "get_detail" [] (st_holding cred_spent))
  = Ret (response_success w_fresh (PList [PStr "song"])) /\
  content (response_success w_fresh (PList [PStr "song"]))
  = [("code", PInt 200); ("message", PStr "请求成功");
     ("data", PList [PStr "song"]); ("timestamp", PInt 1700000000)] /\
  has_all_five (response_success w_fresh (PList [PStr "song"])) = false /\
  content (response_busy w_fresh)
  = [("code", PInt 503); ("message", PStr "Service Unavailable");
     ("errors", PList [PStr "服务器正在登录，请稍后再试"]);
     ("timestamp", PInt 1700000000)] /\
  has_all_five (response_busy w_fresh) = false.
Proof. repeat split. Qed.

Lemma envelope_witness :
  result_of (_api_web w_expired "song" "get_detail" [] (st_holding cred_spent))
  = Ret (response_validation w_expired [CREDENTIAL_EXPIRED]) /\
  has_key "errors" (content (response_validation w_expired [CREDENTIAL_EXPIRED]))
  = true /\
  has_all_five (response_validation w_expired [CREDENTIAL_EXPIRED]) = false.
Proof.
  split; [reflexivity|].
  destruct (proj2 envelope_omits_null_fields w_expired "song" "get_detail" []
              (st_holding cred_spent)
              (response_validation w_expired [CREDENTIAL_EXPIRED]) eq_refl)
    as (_ & _ & _ & He & _ & Hfive).
  split; [exact He | exact Hfive].
Defined.

(** C9: the storage file holds a JSON object whose ["cookies"] entry is not
    a dict. Nothing fails while reading it, and the loader hands the entry
    back as it is. *)
Lemma load_returns_what_the_file_holds :
  result_of (load_credential_from_file w_fresh
               (initial_state (Some (Json (PDict [("cookies", PNone)])))))
  = Ret PNone /\
  is_dict PNone = false /\
  result_of (load_credential_from_file w_fresh
               (initial_state
                  (Some (Json (PDict [("cookies", PStr "uin=1")])))))
  = Ret (PStr "uin=1") /\
  is_dict (PStr "uin=1") = false.
Proof. repeat split. Qed.

Lemma errors_normalized_witness :
  "无效的用户凭证" <> "" /\
  ["参数验证失败"] <> [] /\
  envelope_errors (response_unauthorized w_fresh)
  = Some (PList [PStr "无效的用户凭证"]) /\
  envelope_errors
    (ApiResponse.error 1700000000 (ErrList ["参数验证失败"]) "Validation Error"
       HTTP_422_UNPROCESSABLE_ENTITY)
  = Some (PList [PStr "参数验证失败"]).
Proof.
  split; [discriminate|]. split; [discriminate|].
  split.
  - apply (proj1 (errors_normalized 1700000000 "Unauthorized"
                    HTTP_401_UNAUTHORIZED)).
    discriminate.
  - apply (proj1 (proj2 (errors_normalized 1700000000 "Validation Error"
                           HTTP_422_UNPROCESSABLE_ENTITY))).
    discriminate.
Defined.
(** ** More on the storage helpers *)

Lemma load_credential_from_file_run w s :
  load_credential_from_file w s =
  let fl := w_io w (io_calls s) in
  let s0 := with_io_calls (S (io_calls s)) s in
  match config_file s with
  | Some c =>
      (Ret (if open_r_fails fl then PDict []
            else match c with
                 | Json (PDict d) => default (PDict []) (dict_get "cookies" d)
                 | _ => PDict []
                 end), s0, [])
  | None =>
      (Ret (PDict []),
       if open_w_fails fl then s0
       else if dump_fails fl then with_config_file (Some Garbage) s0
       else with_config_file (Some (Json (PDict [("cookies", PDict [])]))) s0,
       [])
  end.
Proof.
  mrun. destruct s as [st g fl ck se cf n io]; mrun.
  destruct (w_io w io) as [a b c]; mrun.
  destruct cf as [[v|]|]; cbn.
  - destruct c; [done|]. by destruct v.
  - by destruct c.
  - destruct a; [done|]. destruct b; [done|]. by destruct c.
Qed.

(** X1. Round trip through the storage file: a credential saved without a
    write fault and then loaded without a read fault comes back as exactly
    its serialized fields. *)
Theorem save_then_load_round_trip w l c s :
  store s !! l = Some c ->
  open_w_fails (w_io w (io_calls s)) = false ->
  dump_fails (w_io w (io_calls s)) = false ->
  open_r_fails (w_io w (S (io_calls s))) = false ->
  result_of (load_credential_from_file w
               (state_of (save_credential_to_file w l s)))
  = Ret (PDict (as_dict c)).
Proof.
  intros Hl Ho Hd Hr.
  rewrite save_credential_to_file_run, Hl, load_credential_from_file_run.
  unfold written. cbn. by rewrite Ho, Hd, Hr.
Qed.

(** X2. When the storage file does not exist the loader answers the empty
    dict whatever the faults; it creates the file holding
    [{"cookies": {}}] when the write goes through, and leaves it absent when
    the file cannot be opened for writing. *)
Theorem load_creates_missing_file w s :
  config_file s = None ->
  result_of (load_credential_from_file w s) = Ret (PDict []) /\
  (open_w_fails (w_io w (io_calls s)) = true ->
   config_file (state_of (load_credential_from_file w s)) = None) /\
  (open_w_fails (w_io w (io_calls s)) = false ->
   dump_fails (w_io w (io_calls s)) = false ->
   config_file (state_of (load_credential_from_file w s))
   = Some (Json (PDict [("cookies", PDict [])]))).
Proof.
  intros Hf. rewrite load_credential_from_file_run, Hf. cbn.
  split; [done|]. split.
  - intros Ho. by rewrite Ho.
  - intros Ho Hd. by rewrite Ho, Hd.
Qed.

(** X3. The loader never changes a storage file that exists. It answers
    the empty dict when the file cannot be read, when it does not parse,
    when the document is not a JSON object and when the object has no
    ["cookies"] entry; otherwise it answers that entry. *)
Theorem load_reads_without_writing w s c :
  config_file s = Some c ->
  config_file (state_of (load_credential_from_file w s)) = Some c /\
  (open_r_fails (w_io w (io_calls s)) = true ->
   result_of (load_credential_from_file w s) = Ret (PDict [])) /\
  (open_r_fails (w_io w (io_calls s)) = false ->
   result_of (load_credential_from_file w s)
   = Ret match c with
         | Json (PDict d) => default (PDict []) (dict_get "cookies" d)
         | _ => PDict []
         end).
Proof.
  intros Hf. rewrite load_credential_from_file_run, Hf. cbn.
  split; [done|]. split; intros Hr; by rewrite Hr.
Qed.

(** X4. A save always returns normally. When the file cannot be opened the
    old content stays; when the write fails after the file was opened (and
    so truncated) the old content is lost, and the next load answers the
    empty dict. *)
Theorem failed_save_and_the_file w l c s :
  store s !! l = Some c ->
  result_of (save_credential_to_file w l s) = Ret tt /\
  (open_w_fails (w_io w (io_calls s)) = true ->
   config_file (state_of (save_credential_to_file w l s)) = config_file s) /\
  (open_w_fails (w_io w (io_calls s)) = false ->
   dump_fails (w_io w (io_calls s)) = true ->
   config_file (state_of (save_credential_to_file w l s)) = Some Garbage /\
   result_of (load_credential_from_file w
                (state_of (save_credential_to_file w l s)))
   = Ret (PDict [])).
Proof.
  intros Hl. rewrite save_credential_to_file_run, Hl. unfold written.
  split; [done|]. split.
  - intros Ho. by rewrite Ho.
  - intros Ho Hd. rewrite Ho, Hd. split; [done|].
    rewrite load_credential_from_file_run. cbn.
    by destruct (open_r_fails _).
Qed.

(** ** What every handler run preserves *)

Section Preserved.
Context (P : State -> Prop).
Hypothesis P_call : forall w s, P s -> P (after_from_cookies w s).
Hypothesis P_alloc : forall s c, P s -> P (with_store (store s ++ [c]) s).
Hypothesis P_relogin : forall w s, P s -> P (state_of (relogin_closed w s)).
Hypothesis P_install : forall s c, P s -> P (after_install s c).
Hypothesis P_refresh : forall s l c c',
  global_credential s = Some l -> store s !! l = Some c ->
  P s -> P (after_refresh s l c').
Hypothesis P_publish : forall s l c,
  global_credential s = Some l -> store s !! l = Some c ->
  P s -> P (with_session_credential (Some l) s).

Lemma reconstruct_or_login_preserves w s :
  P s -> P (state_of (reconstruct_or_login w s)).
Proof using P_call P_alloc P_relogin P_install.
  intros Hs. rewrite reconstruct_or_login_run.
  destruct (truthy (cookies s)); [|by apply P_relogin].
  pose proof (P_call w s Hs) as Hc.
  destruct (w_from_cookies w (cookies s)) as [c|e].
  - destruct (cookie_credential_accepted c); [by apply P_install|].
    apply (P_relogin w (with_store _ (after_from_cookies w s))).
    by apply (P_alloc (after_from_cookies w s)).
  - by apply (P_relogin w (after_from_cookies w s)).
Qed.

Lemma ensure_credential_preserves w s :
  P s -> P (state_of (ensure_credential w s)).
Proof using P_call P_alloc P_relogin P_install.
  intros Hs. rewrite ensure_credential_run.
  destruct (global_credential s) as [l|];
    [|by apply reconstruct_or_login_preserves].
  destruct (store s !! l) as [c|]; [|done].
  destruct (is_expired c); [done|]. by apply reconstruct_or_login_preserves.
Qed.

Lemma refresh_and_publish_preserves w s :
  P s -> P (state_of (refresh_and_publish w s)).
Proof using P_refresh P_publish.
  intros Hs. rewrite refresh_and_publish_run.
  destruct (global_credential s) as [l|] eqn:Hg; [|done].
  destruct (store s !! l) as [c|] eqn:Hl; [|done].
  destruct (can_refresh c); [|by apply (P_publish s l c)].
  destruct (w_refresh w c) as [c'|e]; [|done]. by apply (P_refresh s l c c').
Qed.

Lemma credential_guard_preserves w s :
  P s -> P (state_of (credential_guard w s)).
Proof using All.
  intros Hs. rewrite credential_guard_run.
  pose proof (ensure_credential_preserves w s Hs) as He.
  destruct (ensure_credential w s) as [[[[]|e] s1] te]; cbn in He; [|done].
  pose proof (refresh_and_publish_preserves w s1 He) as Hp.
  by destruct (refresh_and_publish w s1) as [[r s2] tp].
Qed.

Lemma dispatch_preserves w module func params s :
  P s -> P (state_of (dispatch w module func params s)).
Proof using P_relogin.
  intros Hs. rewrite dispatch_run.
  destruct (w_parse w module func params) as [[result errs]|e]; [|done].
  destruct (errors_present errs); [|by destruct (negb _)].
  rewrite report_errors_run.
  destruct (existsb _ (default [] errs)); [|done].
  pose proof (P_relogin w s Hs) as Hr. unfold locked, preceded_by.
  by destruct (relogin_closed w s) as [[[[]|e] s'] t].
Qed.

Lemma api_web_preserves w module func params s :
  P s -> P (state_of (_api_web w module func params s)).
Proof using All.
  intros Hs. rewrite api_web_run.
  destruct (is_logging_in s); [done|].
  pose proof (credential_guard_preserves w s Hs) as Hg.
  destruct (credential_guard w s) as [[[[]|e] s1] tg]; cbn in Hg; [|done].
  pose proof (dispatch_preserves w module func params s1 Hg) as Hd.
  by destruct (dispatch w module func params s1) as [[r s2] td].
Qed.
End Preserved.

Lemma relogin_closed_cookies w s :
  cookies (state_of (relogin_closed w s)) = cookies s.
Proof. unfold relogin_closed. by destruct (qrcode_login_example _) as [[c|]|e]. Qed.

Lemma relogin_closed_no_from_cookies w s :
  existsb is_from_cookies (trace_of (relogin_closed w s)) = false.
Proof. unfold relogin_closed. by destruct (qrcode_login_example _) as [[c|]|e]. Qed.

Lemma reconstruct_or_login_cookies w s :
  cookies (state_of (reconstruct_or_login w s))
  = if existsb is_from_cookies (trace_of (reconstruct_or_login w s))
    then w_cookies_left w (cookies s) else cookies s.
Proof.
  rewrite reconstruct_or_login_run.
  destruct (truthy (cookies s)).
  - destruct (w_from_cookies w (cookies s)) as [c|e].
    + destruct (cookie_credential_accepted c); [done|].
      unfold preceded_by.
      pose proof (relogin_closed_cookies w
                    (with_store (store s ++ [c]) (after_from_cookies w s)))
        as Hr.
      by destruct (relogin_closed w _) as [[r s'] t].
    + unfold preceded_by.
      pose proof (relogin_closed_cookies w (after_from_cookies w s)) as Hr.
      by destruct (relogin_closed w _) as [[r s'] t].
  - by rewrite relogin_closed_no_from_cookies, relogin_closed_cookies.
Qed.

Lemma ensure_credential_cookies w s :
  cookies (state_of (ensure_credential w s))
  = if existsb is_from_cookies (trace_of (ensure_credential w s))
    then w_cookies_left w (cookies s) else cookies s.
Proof.
  rewrite ensure_credential_run.
  destruct (global_credential s) as [l|]; [|apply reconstruct_or_login_cookies].
  destruct (store s !! l) as [c|]; [|done].
  destruct (is_expired c); [done|]. apply reconstruct_or_login_cookies.
Qed.

Lemma refresh_and_publish_cookies w s :
  cookies (state_of (refresh_and_publish w s)) = cookies s /\
  existsb is_from_cookies (trace_of (refresh_and_publish w s)) = false.
Proof.
  rewrite refresh_and_publish_run.
  destruct (global_credential s) as [l|]; [|done].
  destruct (store s !! l) as [c|]; [|done].
  destruct (can_refresh c); [|done]. by destruct (w_refresh w c).
Qed.

Lemma credential_guard_cookies w s :
  cookies (state_of (credential_guard w s))
  = if existsb is_from_cookies (trace_of (credential_guard w s))
    then w_cookies_left w (cookies s) else cookies s.
Proof.
  rewrite credential_guard_run.
  pose proof (ensure_credential_cookies w s) as He.
  destruct (ensure_credential w s) as [[[[]|e] s1] te];
    cbn [state_of trace_of fst snd] in He |- *.
  - pose proof (refresh_and_publish_cookies w s1) as [Hp Hq].
    destruct (refresh_and_publish w s1) as [[r s2] tp].
    cbn [state_of trace_of fst snd] in Hp, Hq |- *.
    cbn [existsb is_from_cookies orb]. rewrite !existsb_app, Hq. cbn.
    rewrite orb_false_r. congruence.
  - cbn [existsb is_from_cookies orb]. rewrite existsb_app. cbn.
    by rewrite orb_false_r.
Qed.

Lemma dispatch_cookies w module func params s :
  cookies (state_of (dispatch w module func params s)) = cookies s /\
  existsb is_from_cookies (trace_of (dispatch w module func params s)) = false.
Proof.
  rewrite dispatch_run.
  destruct (w_parse w module func params) as [[result errs]|e]; [|done].
  destruct (errors_present errs); [|by destruct (negb _)].
  rewrite report_errors_run.
  destruct (existsb _ (default [] errs)); [|done].
  unfold locked, preceded_by, relogin_closed.
  by destruct (qrcode_login_example _) as [[c|]|e].
Qed.

(** X6. A request changes the module-level [cookies] only by handing them
    to [Credential.from_cookies_dict]: after a request that made that call
    they are what the call left in the dictionary, after any other request
    they are what they were. What a login saves to the file is not read
    back by the running process. *)
Theorem cookies_change_only_in_from_cookies_dict w module func params s :
  cookies (state_of (_api_web w module func params s))
  = if existsb is_from_cookies (trace_of (_api_web w module func params s))
    then w_cookies_left w (cookies s) else cookies s.
Proof.
  rewrite api_web_run.
  destruct (is_logging_in s); [done|].
  pose proof (credential_guard_cookies w s) as Hg.
  destruct (credential_guard w s) as [[[[]|e] s1] tg];
    cbn [state_of trace_of fst snd] in Hg |- *; [|done].
  pose proof (dispatch_cookies w module func params s1) as [Hd Hq].
  destruct (dispatch w module func params s1) as [[r s2] td].
  cbn [state_of trace_of fst snd] in Hd, Hq |- *.
  rewrite existsb_app, Hq, orb_false_r. congruence.
Qed.

Lemma denotes_spec s r :
  denotes s r = true <-> forall l, r = Some l -> (l < length (store s))%nat.
Proof.
  destruct r as [l|]; unfold denotes.
  - rewrite Nat.ltb_lt. split; [by intros H ? [= <-]|auto].
  - split; [by intros|done].
Qed.

Lemma well_formed_spec s :
  well_formed s = true <->
  (forall l, global_credential s = Some l -> (l < length (store s))%nat) /\
  (forall l, session_credential s = Some l -> (l < length (store s))%nat).
Proof. unfold well_formed. by rewrite andb_true_iff, !denotes_spec. Qed.

Lemma relogin_closed_well_formed w s :
  well_formed s = true -> well_formed (state_of (relogin_closed w s)) = true.
Proof.
  rewrite !well_formed_spec. intros [Hg Hs]. unfold relogin_closed.
  destruct (qrcode_login_example _) as [[c|]|e];
    cbn [state_of fst snd after_login_saved after_login_none
         after_login_raised store global_credential session_credential];
    rewrite ?length_app; cbn [length]; split; intros l Hl;
    try discriminate; try (injection Hl as <-); try lia;
    try (specialize (Hs _ Hl); lia); auto.
Qed.

Lemma relogin_closed_store_grows w s :
  (length (store s) <= length (store (state_of (relogin_closed w s))))%nat.
Proof.
  unfold relogin_closed.
  destruct (qrcode_login_example _) as [[c|]|e]; cbn; [|done..].
  rewrite length_app. lia.
Qed.

(** X15. No reference dangles: in the initial state, and after module
    import and after every request from a state where this holds, the slot
    and the session refer to objects of the store; and a request never
    removes an object from the store. *)
Theorem reachable_states_are_well_formed :
  (forall f, well_formed (initial_state f) = true) /\
  (forall w s, well_formed s = true ->
     well_formed (state_of (startup w s)) = true) /\
  (forall w module func params s, well_formed s = true ->
     well_formed (state_of (_api_web w module func params s)) = true /\
     (length (store s)
      <= length (store (state_of (_api_web w module func params s))))%nat).
Proof.
  split; [done|]. split.
  - intros w s Hs. unfold startup, mbind, M_bind.
    rewrite load_credential_from_file_run.
    destruct (config_file s) as [c|]; cbn; [done|].
    destruct (open_w_fails _); [done|]. by destruct (dump_fails _).
  - intros w module func params s Hs. split.
    + apply (api_web_preserves (fun s' => well_formed s' = true)); try done.
      * intros s' c. rewrite !well_formed_spec. intros [Hg Hse].
        cbn [with_store store global_credential session_credential].
        rewrite length_app. cbn [length].
        split; intros l Hl; [specialize (Hg _ Hl)|specialize (Hse _ Hl)]; lia.
      * apply relogin_closed_well_formed.
      * intros s' c. rewrite !well_formed_spec. intros [Hg Hse].
        unfold after_install.
        cbn [with_store with_global_credential store global_credential
             session_credential].
        rewrite length_app. cbn [length].
        split; intros l Hl; [injection Hl as <-|specialize (Hse _ Hl)]; lia.
      * intros s' l c c' Hg Hl. rewrite !well_formed_spec. intros [Hg' Hse].
        apply lookup_lt_Some in Hl. unfold after_refresh.
        cbn [with_store with_session_credential store global_credential
             session_credential].
        rewrite length_insert.
        split; intros l0 Hl0; [by apply Hg'|injection Hl0 as <-; lia].
      * intros s' l c Hg Hl. rewrite !well_formed_spec. intros [Hg' Hse].
        apply lookup_lt_Some in Hl.
        cbn [with_session_credential store global_credential
             session_credential].
        split; intros l0 Hl0; [by apply Hg'|injection Hl0 as <-; lia].
    + apply (api_web_preserves
               (fun s' => (length (store s) <= length (store s'))%nat));
        try done.
      * intros s' c H. cbn. rewrite length_app. lia.
      * intros w' s' H. pose proof (relogin_closed_store_grows w' s'). lia.
      * intros s' c H. cbn. rewrite length_app. lia.
      * intros s' l c c' _ _ H. cbn. by rewrite length_insert.
Qed.

(** ** Start of the process *)

Lemma startup_run w s :
  startup w s =
  (Ret tt,
   with_cookies
     (match result_of (load_credential_from_file w s) with
      | Ret v => v
      | Raise _ => PNone
      end)
     (state_of (load_credential_from_file w s)),
   []).
Proof.
  unfold startup, mbind, M_bind, modify.
  rewrite load_credential_from_file_run.
  destruct (config_file s); reflexivity.
Qed.

Lemma guard_without_cookies w s :
  global_credential s = None ->
  truthy (cookies s) = false ->
  credential_guard w s =
  match relogin_closed w s with
  | (Ret _, s1, tr) =>
      match refresh_and_publish w s1 with
      | (r, s2, tp) => (r, s2, EvAcquire :: tr ++ tp ++ [EvRelease])
      end
  | (Raise e, s1, tr) => (Raise e, s1, EvAcquire :: tr ++ [EvRelease])
  end.
Proof.
  intros Hg Hck.
  by rewrite credential_guard_run, ensure_credential_run, Hg,
    reconstruct_or_login_run, Hck.
Qed.

Lemma startup_without_file w :
  let s1 := state_of (startup w (initial_state None)) in
  cookies s1 = PDict [] /\ global_credential s1 = None /\
  is_logging_in s1 = false /\ store s1 = [] /\ logins s1 = 0%nat.
Proof.
  rewrite startup_run, load_credential_from_file_run. cbn.
  destruct (open_w_fails _); [done|]. by destruct (dump_fails _).
Qed.

(** X5. A process started without a storage file has empty cookies,
    whatever the storage faults, and its first request begins by taking the
    lock, raising the flag and running the first QR login of the process,
    with no attempt to build a credential from the cookies before it. *)
Theorem startup_without_file_forces_login w module func params :
  let s1 := state_of (startup w (initial_state None)) in
  cookies s1 = PDict [] /\
  exists rest,
    trace_of (_api_web w module func params s1)
    = EvAcquire :: EvFlag true
      :: EvLogin match qrcode_login_example (w_login w 0) with
                 | Ret (Some _) => Ret (Some 0%nat)
                 | Ret None => Ret None
                 | Raise e => Raise e
                 end
      :: rest.
Proof.
  intros s1. destruct (startup_without_file w) as (Hck & Hg & Hf & Hst & Hn).
  fold s1 in Hck, Hg, Hf, Hst, Hn. split; [done|].
  rewrite api_web_run, Hf, guard_without_cookies by (by rewrite ?Hck).
  unfold relogin_closed. rewrite Hn, Hst.
  destruct (qrcode_login_example (w_login w 0)) as [[c|]|e];
    cbn [length app].
  - destruct (refresh_and_publish w _) as [[[[]|e] s2] tp].
    + destruct (dispatch w module func params s2) as [[r s3] td].
      cbn. eauto.
    + cbn. eauto.
  - destruct (refresh_and_publish w _) as [[[[]|e] s2] tp].
    + destruct (dispatch w module func params s2) as [[r s3] td].
      cbn. eauto.
    + cbn. eauto.
  - cbn. eauto.
Qed.

(** X9. With no credential and empty cookies, a login that yields no
    credential (time out, login error, or an exception) makes the request
    end with 401 after exactly one login: the slot stays empty, the flag is
    down, the file is untouched and the parser is never invoked. *)
Theorem login_without_credential_answers_401 w module func params s :
  is_logging_in s = false ->
  global_credential s = None ->
  truthy (cookies s) = false ->
  (forall c, qrcode_login_example (w_login w (logins s)) <> Ret (Some c)) ->
  result_of (_api_web w module func params s) = Ret (response_unauthorized w) /\
  global_credential (state_of (_api_web w module func params s)) = None /\
  is_logging_in (state_of (_api_web w module func params s)) = false /\
  config_file (state_of (_api_web w module func params s)) = config_file s /\
  count is_parse (trace_of (_api_web w module func params s)) = 0%nat /\
  count is_login (trace_of (_api_web w module func params s)) = 1%nat.
Proof.
  intros Hf Hg Hck Hno.
  rewrite api_web_run, Hf, guard_without_cookies by done.
  unfold relogin_closed.
  destruct (qrcode_login_example (w_login w (logins s))) as [[c|]|e].
  - by destruct (Hno c).
  - rewrite refresh_and_publish_run. by cbn.
  - cbn. by rewrite Hg.
Qed.

(** ** What the status code says *)

(** X7. The status code of a returned response tells its cause: 503 only
    when the flag was up; 401 only when the guard raised; 500 only when the
    parser raised; 422 only when the parser returned a non-empty error list,
    which the response carries; 400 only with no errors and an invalid
    request; 200 only with no errors and a valid request, the payload being
    the parser's result. No other status is returned, and the [code] of
    the body is the HTTP status. *)
Theorem status_tells_the_cause w module func params s resp :
  result_of (_api_web w module func params s) = Ret resp ->
  dict_get "code" (content resp) = Some (PInt (status_code resp)) /\
  match status_code resp with
  | 503 => is_logging_in s = true
  | 401 =>
      is_logging_in s = false /\
      returned (result_of (credential_guard w s)) = false
  | 500 =>
      is_logging_in s = false /\
      returned (result_of (credential_guard w s)) = true /\
      returned (w_parse w module func params) = false
  | 422 =>
      is_logging_in s = false /\
      returned (result_of (credential_guard w s)) = true /\
      exists result e es,
        w_parse w module func params = Ret (result, Some (e :: es)) /\
        envelope_errors resp = Some (str_list (e :: es))
  | 400 =>
      is_logging_in s = false /\
      returned (result_of (credential_guard w s)) = true /\
      exists result errs,
        w_parse w module func params = Ret (result, errs) /\
        errors_present errs = false /\
        w_valid w module func params = false
  | 200 =>
      is_logging_in s = false /\
      returned (result_of (credential_guard w s)) = true /\
      exists errs,
        w_parse w module func params
        = Ret (default PNone (dict_get "data" (content resp)), errs) /\
        errors_present errs = false /\
        w_valid w module func params = true
  | _ => False
  end.
Proof.
  rewrite api_web_run.
  destruct (is_logging_in s); [by intros [= <-]|].
  destruct (credential_guard w s) as [[[[]|e] s1] tg]; [|by intros [= <-]].
  rewrite dispatch_run.
  destruct (w_parse w module func params) as [[result errs]|e];
    [|by intros [= <-]].
  destruct errs as [[|e es]|]; cbn [errors_present length Nat.eqb negb].
  - destruct (w_valid w module func params) eqn:Hv; cbn [negb];
      intros [= <-]; (split; [by destruct result|]); cbn.
    + repeat split. exists (Some []). by destruct result.
    + repeat split. by exists result, (Some []).
  - unfold preceded_by. cbn [from_option id].
    pose proof (report_errors_response w (e :: es) s1) as Hr.
    destruct (report_errors w (e :: es) s1) as [[r s2] t]. cbn in Hr |- *.
    intros ->. rewrite (Hr resp eq_refl). split; [done|]. cbn.
    repeat split. by exists result, e, es.
  - destruct (w_valid w module func params) eqn:Hv; cbn [negb];
      intros [= <-]; (split; [by destruct result|]); cbn.
    + repeat split. exists None. by destruct result.
    + repeat split. by exists result, None.
Qed.

(** X8. The parser is invoked, once, exactly when the flag was down and the
    guard returned normally; and whenever the guard returns normally the
    slot and the session hold the same reference to an object of the
    store. *)
Theorem parser_runs_with_published_credential w module func params s :
  (count is_parse (trace_of (_api_web w module func params s)) = 1%nat <->
   is_logging_in s = false /\
   returned (result_of (credential_guard w s)) = true) /\
  (returned (result_of (credential_guard w s)) = true ->
   exists l c,
     global_credential (state_of (credential_guard w s)) = Some l /\
     session_credential (state_of (credential_guard w s)) = Some l /\
     store (state_of (credential_guard w s)) !! l = Some c).
Proof.
  split.
  - rewrite api_web_run.
    destruct (is_logging_in s); [cbn; split; [done|by intros [? _]]|].
    pose proof (credential_guard_trace w s) as Hg.
    apply guard_trace_no_parse in Hg.
    destruct (credential_guard w s) as [[[[]|e] s1] tg];
      cbn [trace_of result_of fst snd returned] in Hg |- *.
    + pose proof (dispatch_trace w module func params s1) as Hd.
      destruct (dispatch w module func params s1) as [[r s2] td].
      cbn [trace_of snd] in Hd |- *. rewrite count_app, Hg.
      destruct Hd as [->|(tr & Htr & ->)]; [done|].
      apply relogin_trace_counts in Htr as [Htr _].
      change (EvParse :: EvAcquire :: tr ++ [EvRelease])
        with ([EvParse; EvAcquire] ++ tr ++ [EvRelease]).
      rewrite !count_app, Htr. done.
    + rewrite Hg. split; [done|by intros [_ ?]].
  - rewrite credential_guard_run.
    destruct (ensure_credential w s) as [[[[]|e] s1] te]; [|done].
    rewrite refresh_and_publish_run.
    destruct (global_credential s1) as [l|] eqn:Hg; [|done].
    destruct (store s1 !! l) as [c|] eqn:Hl; [|done].
    destruct (can_refresh c).
    + destruct (w_refresh w c) as [c'|e]; [|done]. intros _.
      exists l, c'. cbn. rewrite Hg. repeat split.
      apply list_lookup_insert_eq. by apply lookup_lt_Some in Hl.
    + intros _. exists l, c. cbn. by rewrite Hg, Hl.
Qed.

(** X10. After the parser has returned, a login runs exactly when the
    expired-credential marker is an element of the error list; an error
    that merely contains the marker does not count. When no login runs the
    dispatch leaves the state as it was. *)
Theorem relogin_iff_marker_is_an_element w module func params s result errs :
  w_parse w module func params = Ret (result, errs) ->
  (existsb is_login (trace_of (dispatch w module func params s)) = true <->
   exists l, errs = Some l /\ In CREDENTIAL_EXPIRED l) /\
  (existsb is_login (trace_of (dispatch w module func params s)) = false ->
   state_of (dispatch w module func params s) = s).
Proof.
  intros Hp. rewrite dispatch_run, Hp.
  assert (forall l, existsb (String.eqb CREDENTIAL_EXPIRED) l = true <->
                    In CREDENTIAL_EXPIRED l) as Hin.
  { intros l. rewrite existsb_exists. split.
    - by intros (x & Hx & ->%String.eqb_eq).
    - intros H. exists CREDENTIAL_EXPIRED. by rewrite String.eqb_refl. }
  destruct errs as [[|e es]|]; cbn [errors_present length Nat.eqb negb].
  - destruct (negb _); cbn; (split; [|done]);
      (split; [done|by intros (l & [= <-] & [])]).
  - rewrite report_errors_run. cbn [from_option id].
    destruct (existsb (String.eqb CREDENTIAL_EXPIRED) (e :: es)) eqn:Hm.
    + apply Hin in Hm. unfold locked, preceded_by, relogin_closed.
      destruct (qrcode_login_example _) as [[c|]|x]; cbn;
        (split; [split; eauto|done]).
    + cbn. split; [|done]. split; [done|].
      intros (l & [= <-] & Hl%Hin). congruence.
  - destruct (negb _); cbn; (split; [|done]);
      (split; [done|by intros (l & [=] & _)]).
Qed.

(** ** How much one request does *)

Lemma relogin_trace_work t :
  relogin_trace t ->
  count is_login t = 1%nat /\ (count is_save t <= 1)%nat /\
  count is_refresh t = 0%nat /\ count is_from_cookies t = 0%nat.
Proof. intros []; cbn; repeat split; lia. Qed.

Lemma ensure_trace_work t :
  ensure_trace t ->
  (count is_login t <= 1)%nat /\ (count is_save t <= count is_login t)%nat /\
  count is_refresh t = 0%nat /\ count is_parse t = 0%nat /\
  (count is_from_cookies t + count is_login t <= 2)%nat /\
  (count is_from_cookies t <= 1)%nat.
Proof.
  intros [| |t' H|t' H]; try (cbn; repeat split; lia);
    destruct H; cbn; repeat split; lia.
Qed.

Lemma publish_trace_work t :
  publish_trace t ->
  count is_login t = 0%nat /\ count is_save t = 0%nat /\
  (count is_refresh t <= 1)%nat /\ count is_parse t = 0%nat /\
  count is_from_cookies t = 0%nat.
Proof. intros []; cbn; repeat split; lia. Qed.

(** X11. One request performs at most two logins, at most as many saves as
    logins, at most one refresh, at most one reconstruction from the
    cookies and at most one parse. *)
Theorem work_of_one_request w module func params s :
  let t := trace_of (_api_web w module func params s) in
  (count is_login t <= 2)%nat /\
  (count is_save t <= count is_login t)%nat /\
  (count is_refresh t <= 1)%nat /\
  (count is_from_cookies t <= 1)%nat /\
  (count is_parse t <= 1)%nat.
Proof.
  intros t. subst t.
  assert (forall tg, guard_trace tg ->
    (count is_login tg <= 1)%nat /\
    (count is_save tg <= count is_login tg)%nat /\
    (count is_refresh tg <= 1)%nat /\ (count is_from_cookies tg <= 1)%nat /\
    count is_parse tg = 0%nat) as Hguard.
  { intros tg [te tp He Hp].
    apply ensure_trace_work in He as (? & ? & ? & ? & ? & ?).
    apply publish_trace_work in Hp as (? & ? & ? & ? & ?).
    change (EvAcquire :: te ++ tp ++ [EvRelease])
      with ([EvAcquire] ++ te ++ tp ++ [EvRelease]).
    rewrite !count_app. cbn. repeat split; lia. }
  destruct (api_web_trace w module func params s) as [|tg Hg|tg Hg|tg tr Hg Hr].
  - cbn. repeat split; lia.
  - apply Hguard in Hg as (? & ? & ? & ? & ?). repeat split; lia.
  - apply Hguard in Hg as (? & ? & ? & ? & ?).
    rewrite !count_app. cbn. repeat split; lia.
  - apply Hguard in Hg as (? & ? & ? & ? & ?).
    pose proof (relogin_trace_counts _ Hr) as [? _].
    apply relogin_trace_work in Hr as (? & ? & ? & ?).
    change (EvParse :: EvAcquire :: tr ++ [EvRelease])
      with ([EvParse; EvAcquire] ++ tr ++ [EvRelease]).
    rewrite !count_app. cbn. repeat split; lia.
Qed.

(** ** The QR login *)

Lemma poll_loop_waits waiting ps :
  forallb waiting_poll waiting = true ->
  poll_loop (waiting ++ ps) = poll_loop ps.
Proof.
  induction waiting as [|p waiting IH]; [done|].
  cbn [forallb app]. intros [Hp Hw]%andb_true_iff.
  unfold waiting_poll in Hp. apply andb_true_iff in Hp as [Ht Hc].
  cbn [poll_loop]. destruct (timed_out p); [done|].
  destruct (check_qrcode p) as [[[] oc]|e]; try done; by apply IH.
Qed.

(** X12. Polls that only wait (the clock running, the code scanned or
    awaiting confirmation) do not change the result of the QR login. *)
Theorem qrcode_login_waits_through_scans q waiting ps :
  forallb waiting_poll waiting = true ->
  qrcode_login_example (mkLoginScript q (waiting ++ ps))
  = qrcode_login_example (mkLoginScript q ps).
Proof.
  intros H. unfold qrcode_login_example. cbn [get_qrcode polls].
  by rewrite poll_loop_waits.
Qed.

Lemma poll_loop_done ps c :
  poll_loop ps = Ret (Some (Some c)) ->
  exists waiting p rest,
    ps = waiting ++ p :: rest /\ forallb waiting_poll waiting = true /\
    timed_out p = false /\ check_qrcode p = Ret (DONE, Some c).
Proof.
  induction ps as [|p ps IH]; [done|].
  cbn [poll_loop]. destruct (timed_out p) eqn:Ht; [done|].
  destruct (check_qrcode p) as [[ev oc]|e] eqn:Hc; [|done].
  assert (poll_loop ps = Ret (Some (Some c)) ->
          waiting_poll p = true ->
          exists waiting p0 rest,
            p :: ps = waiting ++ p0 :: rest /\
            forallb waiting_poll waiting = true /\
            timed_out p0 = false /\ check_qrcode p0 = Ret (DONE, Some c))
    as Hstep.
  { intros (waiting & p0 & rest & -> & Hw & Hp0)%IH Hp.
    exists (p :: waiting), p0, rest. cbn. by rewrite Hp, Hw. }
  destruct ev.
  - destruct oc as [c0|]; [|done]. intros [= <-].
    by exists [], p, ps.
  - done.
  - intros H. apply Hstep; [done|]. unfold waiting_poll. by rewrite Ht, Hc.
  - intros H. apply Hstep; [done|]. unfold waiting_poll. by rewrite Ht, Hc.
Qed.

(** X13. The QR login yields a credential only when the QR code was
    obtained and, after polls that only wait, a poll within the time limit
    answered DONE with that credential. *)
Theorem qrcode_login_credential_comes_from_done sc c :
  qrcode_login_example sc = Ret (Some c) ->
  returned (get_qrcode sc) = true /\
  exists waiting p rest,
    polls sc = waiting ++ p :: rest /\ forallb waiting_poll waiting = true /\
    timed_out p = false /\ check_qrcode p = Ret (DONE, Some c).
Proof.
  unfold qrcode_login_example.
  destruct (get_qrcode sc) as [[]|e].
  - destruct (poll_loop (polls sc)) as [[[c0|]|]|e] eqn:Hl; try done.
    + intros [= <-]. split; [done|]. by apply poll_loop_done.
    + by destruct (is_LoginError e).
  - by destruct (is_LoginError e).
Qed.

(** X14. The QR login never raises a LoginError: one raised while
    fetching the QR code ends in [None], while any other exception is
    raised again unchanged. It ends in [None] when the clock has run out at
    the first poll, and when, after polls that only wait, the service
    answers TIMEOUT. *)
Theorem qrcode_login_swallows_login_errors sc :
  (forall e, qrcode_login_example sc = Raise e -> is_LoginError e = false) /\
  (forall msg, get_qrcode sc = Raise (LoginError msg) ->
     qrcode_login_example sc = Ret None) /\
  (forall e, get_qrcode sc = Raise e -> is_LoginError e = false ->
     qrcode_login_example sc = Raise e) /\
  (forall p rest, returned (get_qrcode sc) = true -> polls sc = p :: rest ->
     timed_out p = true -> qrcode_login_example sc = Ret None) /\
  (forall waiting p rest oc,
     returned (get_qrcode sc) = true -> polls sc = waiting ++ p :: rest ->
     forallb waiting_poll waiting = true -> timed_out p = false ->
     check_qrcode p = Ret (TIMEOUT, oc) ->
     qrcode_login_example sc = Ret None).
Proof.
  unfold qrcode_login_example. repeat split.
  - intros e.
    destruct (get_qrcode sc) as [[]|e0].
    + destruct (poll_loop (polls sc)) as [[r|]|e1]; try done.
      destruct (is_LoginError e1) eqn:H; [done|]. by intros [= <-].
    + destruct (is_LoginError e0) eqn:H; [done|]. by intros [= <-].
  - by intros msg ->.
  - by intros e -> ->.
  - intros p rest Hq -> Ht. destruct (get_qrcode sc); [|done].
    cbn. by rewrite Ht.
  - intros waiting p rest oc Hq -> Hw Ht Hc. destruct (get_qrcode sc); [|done].
    rewrite poll_loop_waits by done. cbn. by rewrite Ht, Hc.
Qed.

(** ** What the caller receives *)

(** X16. Whatever happens, the caller receives an envelope whose status is
    one of 200, 400, 401, 422, 500, 503, whose [code] is that status, which
    has [message] and [timestamp], and which carries [errors] exactly when
    the status is not 200. The status is 500 exactly when an exception left
    the handler or the parser raised. *)
Theorem caller_always_gets_an_envelope w module func params s :
  let r := (served w module func params s).1.1 in
  In (status_code r) [200; 400; 401; 422; 500; 503] /\
  dict_get "code" (content r) = Some (PInt (status_code r)) /\
  has_key "message" (content r) = true /\
  has_key "timestamp" (content r) = true /\
  has_key "errors" (content r) = negb (Z.eqb (status_code r) HTTP_200_OK) /\
  (status_code r = HTTP_500_INTERNAL_SERVER_ERROR <->
   returned (result_of (_api_web w module func params s)) = false \/
   result_of (_api_web w module func params s) = Ret (response_internal w)).
Proof.
  unfold served.
  pose proof (api_web_response w module func params s) as Hr.
  destruct (_api_web w module func params s) as [[[resp|e] s'] t]; cbn in Hr |- *.
  - destruct (Hr resp eq_refl)
      as [->|[->|[->|[->|[(e & es & ->)|(result & ->)]]]]];
      try destruct result; cbn;
      repeat split; try tauto; try done;
      try (by intros [|[=]]); try (intros _; right; reflexivity).
  - repeat split; try tauto; try done; intros _; left; reflexivity.
Qed.

(** ** Across a restart, and after a refusal *)

(** X17. What a successful login saved is what the next process loads: if
    the login yields a credential and neither the save nor the later load
    meets a fault, the cookies of a process started on the resulting file
    are the serialized fields of that credential. *)
Theorem login_survives_restart w w' s c :
  qrcode_login_example (w_login w (logins s)) = Ret (Some c) ->
  open_w_fails (w_io w (io_calls s)) = false ->
  dump_fails (w_io w (io_calls s)) = false ->
  open_r_fails (w_io w' 0) = false ->
  cookies (state_of (startup w'
             (initial_state (config_file (state_of (relogin w s))))))
  = PDict (as_dict c).
Proof.
  intros Hl Ho Hd Hr.
  rewrite relogin_run. unfold relogin_closed. rewrite Hl.
  cbn [state_of fst snd after_login_saved config_file].
  unfold written. rewrite Ho, Hd.
  rewrite startup_run, load_credential_from_file_run.
  cbn. by rewrite Hr.
Qed.

Lemma relogin_closed_session w s :
  session_credential (state_of (relogin_closed w s)) = session_credential s.
Proof. unfold relogin_closed. by destruct (qrcode_login_example _) as [[c|]|e]. Qed.

(** X18. A request whose guard raises is answered 401 without invoking the
    parser, and the session keeps the credential it had. *)
Theorem unauthorized_keeps_session w module func params s :
  is_logging_in s = false ->
  returned (result_of (credential_guard w s)) = false ->
  result_of (_api_web w module func params s) = Ret (response_unauthorized w) /\
  session_credential (state_of (_api_web w module func params s))
  = session_credential s /\
  count is_parse (trace_of (_api_web w module func params s)) = 0%nat.
Proof.
  intros Hf. rewrite api_web_run, Hf.
  pose proof (credential_guard_trace w s) as Hg.
  apply guard_trace_no_parse in Hg. revert Hg.
  rewrite credential_guard_run.
  assert (session_credential (state_of (ensure_credential w s))
          = session_credential s) as He.
  { apply (ensure_credential_preserves
             (fun s' => session_credential s' = session_credential s));
      try done.
    intros w' s' Hs'. by rewrite relogin_closed_session. }
  destruct (ensure_credential w s) as [[[[]|e] s1] te]; cbn in He.
  - rewrite refresh_and_publish_run.
    destruct (global_credential s1) as [l|]; [|done].
    destruct (store s1 !! l) as [c|]; [|done].
    destruct (can_refresh c); [|done].
    by destruct (w_refresh w c).
  - done.
Qed.

(** The three exception handlers answer with failure envelopes: the status
    in the body, one error string, no payload. *)
Lemma exception_handler_envelopes now :
  content (_not_found_handler now)
  = [("code", PInt 404); ("message", PStr "Not Found");
     ("errors", PList [PStr "请求的资源不存在"]); ("timestamp", PInt now)] /\
  content (_server_error_handler now)
  = [("code", PInt 500); ("message", PStr "Internal Server Error");
     ("errors", PList [PStr "服务器内部错误"]); ("timestamp", PInt now)] /\
  content (_validation_error_handler now)
  = [("code", PInt 422); ("message", PStr "Validation Error");
     ("errors", PList [PStr "参数验证失败"]); ("timestamp", PInt now)].
Proof. repeat split. Qed.

(** ** Instances of the properties above *)

Lemma save_then_load_witness :
  store (with_store [cred_renewed] (st_holding cred_stale)) !! 0%nat
  = Some cred_renewed /\
  result_of (load_credential_from_file w_fresh
               (state_of (save_credential_to_file w_fresh 0%nat
                            (with_store [cred_renewed] (st_holding cred_stale)))))
  = Ret (PDict (sample_fields "Q_H_L_renewed")).
Proof.
  split; [reflexivity|].
  apply (save_then_load_round_trip w_fresh 0%nat cred_renewed); reflexivity.
Defined.

Lemma load_creates_missing_file_witness :
  config_file (initial_state None) = None /\
  result_of (load_credential_from_file w_disk_full (initial_state None))
  = Ret (PDict []) /\
  config_file (state_of (load_credential_from_file w_fresh (initial_state None)))
  = Some (Json (PDict [("cookies", PDict [])])).
Proof.
  split; [reflexivity|]. split.
  - apply (proj1 (load_creates_missing_file w_disk_full (initial_state None)
                    eq_refl)).
  - apply (proj2 (proj2 (load_creates_missing_file w_fresh (initial_state None)
                           eq_refl))); reflexivity.
Defined.

Lemma load_reads_without_writing_witness :
  config_file (st_holding cred_fresh) = Some (Json (config_of cred_fresh)) /\
  config_file (state_of (load_credential_from_file w_fresh
                           (st_holding cred_fresh)))
  = Some (Json (config_of cred_fresh)) /\
  result_of (load_credential_from_file w_fresh
               (initial_state (Some (Json (PList [PInt 1])))))
  = Ret (PDict []).
Proof.
  split; [reflexivity|]. split.
  - apply (proj1 (load_reads_without_writing w_fresh (st_holding cred_fresh)
                    _ eq_refl)).
  - apply (proj2 (proj2 (load_reads_without_writing w_fresh
                           (initial_state (Some (Json (PList [PInt 1]))))
                           _ eq_refl))).
    reflexivity.
Defined.

Lemma failed_save_witness :
  store (st_holding cred_stale) !! 0%nat = Some cred_stale /\
  config_file (st_holding cred_stale) = Some (Json (config_of cred_stale)) /\
  config_file (state_of (save_credential_to_file w_disk_full 0%nat
                           (st_holding cred_stale)))
  = Some Garbage /\
  result_of (load_credential_from_file w_disk_full
               (state_of (save_credential_to_file w_disk_full 0%nat
                            (st_holding cred_stale))))
  = Ret (PDict []).
Proof.
  split; [reflexivity|]. split; [reflexivity|].
  apply (proj2 (proj2 (failed_save_and_the_file w_disk_full 0%nat cred_stale
                         (st_holding cred_stale) eq_refl))); reflexivity.
Defined.

Lemma status_witness :
  result_of (_api_web w_fresh "song" "get_detail" [] (st_holding cred_spent))
  = Ret (response_success w_fresh (PList [PStr "song"])) /\
  dict_get "code" (content (response_success w_fresh (PList [PStr "song"])))
  = Some (PInt 200).
Proof.
  split; [reflexivity|].
  apply (proj1 (status_tells_the_cause w_fresh "song" "get_detail" []
                  (st_holding cred_spent) _ eq_refl)).
Defined.

Lemma published_credential_witness :
  returned (result_of (credential_guard w_fresh (st_holding cred_spent))) = true /\
  exists l c,
    global_credential (state_of (credential_guard w_fresh (st_holding cred_spent)))
    = Some l /\
    session_credential (state_of (credential_guard w_fresh (st_holding cred_spent)))
    = Some l /\
    store (state_of (credential_guard w_fresh (st_holding cred_spent))) !! l
    = Some c.
Proof.
  split; [reflexivity|].
  apply (proj2 (parser_runs_with_published_credential w_fresh "song"
                  "get_detail" [] (st_holding cred_spent))).
  reflexivity.
Defined.

Lemma login_without_credential_witness :
  is_logging_in (st_empty (PDict [])) = false /\
  global_credential (st_empty (PDict [])) = None /\
  truthy (cookies (st_empty (PDict []))) = false /\
  qrcode_login_example (w_login w_timeout 0) = Ret None /\
  result_of (_api_web w_timeout "song" "get_detail" [] (st_empty (PDict [])))
  = Ret (response_unauthorized w_timeout).
Proof.
  do 4 (split; [reflexivity|]).
  apply (login_without_credential_answers_401 w_timeout "song" "get_detail" []
           (st_empty (PDict [])) eq_refl eq_refl eq_refl).
  intros c H. discriminate H.
Defined.

Lemma marker_near_miss_witness :
  w_parse w_near_miss "song" "get_detail" [] = parsed_near_miss /\
  existsb is_login
    (trace_of (dispatch w_near_miss "song" "get_detail" []
                 (st_holding cred_spent))) = false /\
  state_of (dispatch w_near_miss "song" "get_detail" [] (st_holding cred_spent))
  = st_holding cred_spent.
Proof.
  split; [reflexivity|]. split; [reflexivity|].
  apply (proj2 (relogin_iff_marker_is_an_element w_near_miss "song"
                  "get_detail" [] (st_holding cred_spent) _ _ eq_refl)).
  reflexivity.
Defined.

Lemma waiting_polls_witness :
  forallb waiting_poll
    [mkPoll false (Ret (SCAN, None)); mkPoll false (Ret (CONF, None))] = true /\
  qrcode_login_example script_patient
  = qrcode_login_example
      (mkLoginScript (Ret tt) [mkPoll false (Ret (DONE, Some cred_scanned))]).
Proof.
  split; [reflexivity|].
  apply (qrcode_login_waits_through_scans (Ret tt)
           [mkPoll false (Ret (SCAN, None)); mkPoll false (Ret (CONF, None))]
           [mkPoll false (Ret (DONE, Some cred_scanned))]).
  reflexivity.
Defined.

Lemma credential_from_done_witness :
  qrcode_login_example script_patient = Ret (Some cred_scanned) /\
  returned (get_qrcode script_patient) = true.
Proof.
  split; [reflexivity|].
  apply (proj1 (qrcode_login_credential_comes_from_done script_patient
                  cred_scanned eq_refl)).
Defined.

Lemma login_errors_witness :
  get_qrcode script_broken = Raise (Exception "network unreachable") /\
  is_LoginError (Exception "network unreachable") = false /\
  qrcode_login_example script_broken = Raise (Exception "network unreachable") /\
  qrcode_login_example script_timeout = Ret None /\
  qrcode_login_example script_expired = Ret None.
Proof.
  split; [reflexivity|]. split; [reflexivity|]. split; [|split].
  - apply (proj1 (proj2 (proj2 (qrcode_login_swallows_login_errors
                                  script_broken)))); reflexivity.
  - apply (proj1 (proj2 (proj2 (proj2 (qrcode_login_swallows_login_errors
                                         script_timeout))))
             (mkPoll true (Ret (SCAN, None))) []); reflexivity.
  - apply (proj2 (proj2 (proj2 (proj2 (qrcode_login_swallows_login_errors
                                         script_expired))))
             [mkPoll false (Ret (SCAN, None))]
             (mkPoll false (Ret (TIMEOUT, None))) [] None); reflexivity.
Defined.

Lemma well_formed_witness :
  well_formed (st_holding cred_stale) = true /\
  well_formed (state_of (_api_web w_fresh "song" "get_detail" []
                           (st_holding cred_stale))) = true.
Proof.
  split; [reflexivity|].
  apply (proj2 (proj2 reachable_states_are_well_formed) w_fresh "song"
           "get_detail" [] (st_holding cred_stale) eq_refl).
Defined.

Lemma login_survives_restart_witness :
  qrcode_login_example (w_login w_fresh (logins (st_empty (PDict []))))
  = Ret (Some cred_scanned) /\
  cookies (state_of (startup w_fresh
             (initial_state
                (config_file (state_of (relogin w_fresh (st_empty (PDict []))))))))
  = PDict (sample_fields "Q_H_L_scanned").
Proof.
  split; [reflexivity|].
  apply (login_survives_restart w_fresh w_fresh (st_empty (PDict []))
           cred_scanned); reflexivity.
Defined.

Lemma unauthorized_keeps_session_witness :
  is_logging_in (st_empty (PDict [])) = false /\
  returned (result_of (credential_guard w_timeout (st_empty (PDict [])))) = false /\
  session_credential
    (state_of (_api_web w_timeout "song" "get_detail" [] (st_empty (PDict []))))
  = None.
Proof.
  split; [reflexivity|]. split; [reflexivity|].
  apply (proj1 (proj2 (unauthorized_keeps_session w_timeout "song"
                         "get_detail" [] (st_empty (PDict []))
                         eq_refl eq_refl))).
Defined.
